(** * sqler: database/sql behind interfaces

    A shallow embedding of [sqler.go].  The package forwards every call to
    Go's [database/sql]; that library is not part of the package, so it is
    taken here as a parameter: a [Driver] gives, for every native method the
    package calls, its result and its effect on the library's own state.
    The wrappers run in a state monad over a [World] that also records the
    sequence of native calls made, so that "delegates to", "closes" and
    "does not retry" are statements about that sequence. *)

From Stdlib Require Import List String ZArith.
Import ListNotations.
Open Scope string_scope.
Open Scope list_scope.

(** ** Values of the Go side *)

(** Go's [error] interface: [None] is the nil error. *)
Definition error := option string.

(** An [interface{}] argument of a query. *)
Inductive value : Type :=
| VNull
| VInt (z : Z)
| VString (s : string).

(** [context.Context] is passed through untouched; only its identity matters. *)
Definition Context := nat.

(** [*sql.TxOptions]; the pointer may be nil, hence [option TxOptions] below. *)
Record TxOptions : Type := { Isolation : nat; ReadOnly : bool }.

(** The native objects of [database/sql] are handled through pointers.
    A pointer is nil or the address of an object; the tag keeps pointers to
    different native types apart. *)
Inductive native : Type := kDB | kConn | kTx | kStmt | kRows | kRow.

Inductive ptr (k : native) : Type :=
| null
| at_addr (a : nat).
Arguments null {k}.
Arguments at_addr {k} a.

Definition sql_DB := ptr kDB.
Definition sql_Conn := ptr kConn.
Definition sql_Tx := ptr kTx.
Definition sql_Stmt := ptr kStmt.
Definition sql_Rows := ptr kRows.
Definition sql_Row := ptr kRow.

(** [sql.Result]: the summary of an executed statement. *)
Record sql_Result : Type := { LastInsertId : Z; RowsAffected : Z }.

(** [SQLQueryer] is the common interface of [*sql.DB], [*sql.Conn] and
    [*sql.Tx]; [SQLConn] the common interface of [*sql.DB] and [*sql.Conn]. *)
Inductive SQLQueryer : Type :=
| Q_DB (db : sql_DB)
| Q_Conn (c : sql_Conn)
| Q_Tx (tx : sql_Tx).

Inductive SQLConn : Type :=
| C_DB (db : sql_DB)
| C_Conn (c : sql_Conn).

(** The implicit conversion of an [SQLConn] to the [SQLQueryer] it embeds. *)
Definition SQLConn_SQLQueryer (c : SQLConn) : SQLQueryer :=
  match c with
  | C_DB db => Q_DB db
  | C_Conn c => Q_Conn c
  end.

(** Destinations of a [Scan] are pointers into the caller's memory. *)
Definition Mem := list (nat * value).

(** ** Native calls *)

Inductive Call : Type :=
| call_Open (driverName dataSourceName : string)
| call_DB_Conn (db : sql_DB) (ctx : Context)
| call_BeginTx (c : SQLConn) (ctx : Context) (opts : option TxOptions)
| call_Close (c : SQLConn)
| call_PingContext (c : SQLConn) (ctx : Context)
| call_Tx_Commit (tx : sql_Tx)
| call_Tx_Rollback (tx : sql_Tx)
| call_Tx_StmtContext (tx : sql_Tx) (ctx : Context) (stmt : sql_Stmt)
| call_ExecContext (q : SQLQueryer) (ctx : Context) (query : string) (args : list value)
| call_PrepareContext (q : SQLQueryer) (ctx : Context) (query : string)
| call_QueryContext (q : SQLQueryer) (ctx : Context) (query : string) (args : list value)
| call_QueryRowContext (q : SQLQueryer) (ctx : Context) (query : string) (args : list value)
| call_Stmt_ExecContext (s : sql_Stmt) (ctx : Context) (args : list value)
| call_Stmt_QueryContext (s : sql_Stmt) (ctx : Context) (args : list value)
| call_Stmt_QueryRowContext (s : sql_Stmt) (ctx : Context) (args : list value)
| call_Row_Scan (r : sql_Row) (dest : list nat).

(** What [database/sql] does, over a state [S] of its own.  A Go result
    [(x, err)] is the pair of both components: nothing forces [x] to be nil
    when [err] is not. *)
Record Driver (S : Type) : Type := {
  sql_Open : string -> string -> S -> (sql_DB * error) * S;
  sql_DB_Conn : sql_DB -> Context -> S -> (sql_Conn * error) * S;
  sql_BeginTx : SQLConn -> Context -> option TxOptions -> S -> (sql_Tx * error) * S;
  sql_Close : SQLConn -> S -> error * S;
  sql_PingContext : SQLConn -> Context -> S -> error * S;
  sql_Tx_Commit : sql_Tx -> S -> error * S;
  sql_Tx_Rollback : sql_Tx -> S -> error * S;
  sql_Tx_StmtContext : sql_Tx -> Context -> sql_Stmt -> S -> sql_Stmt * S;
  sql_ExecContext :
    SQLQueryer -> Context -> string -> list value -> S -> (option sql_Result * error) * S;
  sql_PrepareContext : SQLQueryer -> Context -> string -> S -> (sql_Stmt * error) * S;
  sql_QueryContext :
    SQLQueryer -> Context -> string -> list value -> S -> (sql_Rows * error) * S;
  sql_QueryRowContext : SQLQueryer -> Context -> string -> list value -> S -> sql_Row * S;
  sql_Stmt_ExecContext :
    sql_Stmt -> Context -> list value -> S -> (option sql_Result * error) * S;
  sql_Stmt_QueryContext : sql_Stmt -> Context -> list value -> S -> (sql_Rows * error) * S;
  sql_Stmt_QueryRowContext : sql_Stmt -> Context -> list value -> S -> sql_Row * S;
  sql_Row_Scan : sql_Row -> list nat -> Mem -> S -> (error * Mem) * S
}.
Arguments sql_Open {S}.
Arguments sql_DB_Conn {S}.
Arguments sql_BeginTx {S}.
Arguments sql_Close {S}.
Arguments sql_PingContext {S}.
Arguments sql_Tx_Commit {S}.
Arguments sql_Tx_Rollback {S}.
Arguments sql_Tx_StmtContext {S}.
Arguments sql_ExecContext {S}.
Arguments sql_PrepareContext {S}.
Arguments sql_QueryContext {S}.
Arguments sql_QueryRowContext {S}.
Arguments sql_Stmt_ExecContext {S}.
Arguments sql_Stmt_QueryContext {S}.
Arguments sql_Stmt_QueryRowContext {S}.
Arguments sql_Row_Scan {S}.

(** ** The world and its monad *)

Record World (S : Type) : Type := mkWorld {
  trace : list Call;   (* native calls made so far, oldest first *)
  mem : Mem;           (* the caller's memory *)
  drv : S              (* the state of database/sql *)
}.
Arguments mkWorld {S}.
Arguments trace {S}.
Arguments mem {S}.
Arguments drv {S}.

Definition M (S A : Type) : Type := World S -> A * World S.

Definition ret {S A} (a : A) : M S A := fun w => (a, w).

Definition bind {S A B} (m : M S A) (k : A -> M S B) : M S B :=
  fun w => let (a, w') := m w in k a w'.

Notation "x <- m ;; k" := (bind m (fun x => k))
  (at level 61, m at next level, right associativity).
Notation "' pat <- m ;; k" := (bind m (fun x => match x with pat => k end))
  (at level 61, pat pattern, m at next level, right associativity).

(** One native call: it is recorded, and the library's state advances. *)
Definition native_call {S A} (c : Call) (op : S -> A * S) : M S A :=
  fun w =>
    let (a, s) := op (drv w) in
    (a, mkWorld (trace w ++ [c]) (mem w) s).

(** A native [Scan] may also write to the destinations. *)
Definition native_scan {S} (c : Call) (op : Mem -> S -> (error * Mem) * S) : M S error :=
  fun w =>
    let '(e, m, s) := op (mem w) (drv w) in
    (e, mkWorld (trace w ++ [c]) m s).

(** ** Wrapper types

    An interface value is one of the package's types implementing it.  A
    field or a parameter of interface type holds a non-nil value; the nil
    interface appears only as a result, as [None]. *)

(** [Queryer]: the package stores in [Queryer] fields only what
    [WrapQueryer] returns. *)
Record wrappedQueryer : Type := { wq_SQLQueryer : SQLQueryer }.
Definition Queryer := wrappedQueryer.

Record wrappedStmt : Type := { ws_Stmt : sql_Stmt }.
Definition Stmt := wrappedStmt.

Record wrappedDB : Type := { wdb_DB : sql_DB; wdb_queryer : Queryer }.
Definition DB := wrappedDB.

Record wrappedConn : Type := { wc_c : SQLConn; wc_Queryer : Queryer }.

(** [Conn] is implemented by [wrappedConn] and, since [DB] embeds [Conn],
    by [wrappedDB]. *)
Inductive Conn : Type :=
| Conn_wrappedConn (c : wrappedConn)
| Conn_wrappedDB (db : wrappedDB).

Record wrappedTx : Type := { wtx_tx : sql_Tx; wtx_Queryer : Queryer }.

(** [Tx] is implemented by [wrappedTx] and by [connTx], which embeds a [Tx]. *)
Inductive Tx : Type :=
| Tx_wrappedTx (t : wrappedTx)
| Tx_connTx (t : connTx)
with connTx : Type :=
| mk_connTx (c : Conn) (tx : Tx).

Definition connTx_c (t : connTx) : Conn := let 'mk_connTx c _ := t in c.
Definition connTx_Tx (t : connTx) : Tx := let 'mk_connTx _ tx := t in tx.

(** [Rows] is implemented by [*sql.Rows] alone. *)
Definition Rows := sql_Rows.

Record errRow : Type := { err : error }.

(** [Row] is implemented by [*sql.Row] and by [errRow]. *)
Inductive Row : Type :=
| Row_sql (r : sql_Row)
| Row_errRow (e : errRow).

(** ** Constructors *)

Definition WrapQueryer (q : SQLQueryer) : Queryer := {| wq_SQLQueryer := q |}.

Definition WrapStmt (stmt : sql_Stmt) : Stmt := {| ws_Stmt := stmt |}.

Definition WrapDB (db : sql_DB) : DB :=
  {| wdb_DB := db; wdb_queryer := WrapQueryer (Q_DB db) |}.

Definition WrapConn (c : SQLConn) : Conn :=
  Conn_wrappedConn {| wc_c := c; wc_Queryer := WrapQueryer (SQLConn_SQLQueryer c) |}.

Definition wrappedDB_Unwrap (db : wrappedDB) : sql_DB := wdb_DB db.

Definition wrappedStmt_Unwrap (s : wrappedStmt) : sql_Stmt := ws_Stmt s.

(** ** The operations of the package *)

Section Sqler.

Context {S : Type} (sql : Driver S).

(** [Open]: [sql.Open] and, when it succeeds, [WrapDB]. *)
Definition Open (driverName dataSourceName : string) : M S (option DB * error) :=
  '(db, err) <- native_call (call_Open driverName dataSourceName)
                            (sql_Open sql driverName dataSourceName) ;;
  match err with
  | Some _ => ret (None, err)
  | None => ret (Some (WrapDB db), None)
  end.

(** *** wrappedQueryer *)

Definition wrappedQueryer_Exec (q : wrappedQueryer) (ctx : Context) (query : string)
    (args : list value) : M S (option sql_Result * error) :=
  '(r, err) <- native_call (call_ExecContext (wq_SQLQueryer q) ctx query args)
                           (sql_ExecContext sql (wq_SQLQueryer q) ctx query args) ;;
  match err with
  | Some _ => ret (None, err)
  | None => ret (r, None)
  end.

Definition wrappedQueryer_Prepare (q : wrappedQueryer) (ctx : Context) (query : string)
    : M S (option Stmt * error) :=
  '(s, err) <- native_call (call_PrepareContext (wq_SQLQueryer q) ctx query)
                           (sql_PrepareContext sql (wq_SQLQueryer q) ctx query) ;;
  match err with
  | Some _ => ret (None, err)
  | None => ret (Some (WrapStmt s), None)
  end.

Definition wrappedQueryer_Query (q : wrappedQueryer) (ctx : Context) (query : string)
    (args : list value) : M S (option Rows * error) :=
  '(rows, err) <- native_call (call_QueryContext (wq_SQLQueryer q) ctx query args)
                              (sql_QueryContext sql (wq_SQLQueryer q) ctx query args) ;;
  match err with
  | Some _ => ret (None, err)
  | None => ret (Some rows, None)
  end.

Definition wrappedQueryer_QueryRow (q : wrappedQueryer) (ctx : Context) (query : string)
    (args : list value) : M S Row :=
  r <- native_call (call_QueryRowContext (wq_SQLQueryer q) ctx query args)
                   (sql_QueryRowContext sql (wq_SQLQueryer q) ctx query args) ;;
  ret (Row_sql r).

(** *** wrappedStmt *)

Definition wrappedStmt_Exec (s : wrappedStmt) (ctx : Context) (args : list value)
    : M S (option sql_Result * error) :=
  '(r, err) <- native_call (call_Stmt_ExecContext (ws_Stmt s) ctx args)
                           (sql_Stmt_ExecContext sql (ws_Stmt s) ctx args) ;;
  match err with
  | Some _ => ret (None, err)
  | None => ret (r, None)
  end.

Definition wrappedStmt_Query (s : wrappedStmt) (ctx : Context) (args : list value)
    : M S (option Rows * error) :=
  '(w, err) <- native_call (call_Stmt_QueryContext (ws_Stmt s) ctx args)
                           (sql_Stmt_QueryContext sql (ws_Stmt s) ctx args) ;;
  match err with
  | Some _ => ret (None, err)
  | None => ret (Some w, None)
  end.

Definition wrappedStmt_QueryRow (s : wrappedStmt) (ctx : Context) (args : list value)
    : M S Row :=
  r <- native_call (call_Stmt_QueryRowContext (ws_Stmt s) ctx args)
                   (sql_Stmt_QueryRowContext sql (ws_Stmt s) ctx args) ;;
  ret (Row_sql r).

(** *** Row *)

Definition errRow_Scan (e : errRow) (dest : list nat) : M S error := ret (err e).

(** [Scan] on a [Row]: [*sql.Row]'s own method, or [errRow]'s. *)
Definition Row_Scan (r : Row) (dest : list nat) : M S error :=
  match r with
  | Row_sql r => native_scan (call_Row_Scan r dest) (sql_Row_Scan sql r dest)
  | Row_errRow e => errRow_Scan e dest
  end.

(** *** wrappedDB *)

Definition wrappedDB_Conn (db : wrappedDB) (ctx : Context) : M S (option Conn * error) :=
  '(c, err) <- native_call (call_DB_Conn (wdb_DB db) ctx) (sql_DB_Conn sql (wdb_DB db) ctx) ;;
  match err with
  | Some _ => ret (None, err)
  | None => ret (Some (WrapConn (C_Conn c)), None)
  end.

Definition wrappedDB_BeginTx (db : wrappedDB) (ctx : Context) (opts : option TxOptions)
    : M S (option Tx * error) :=
  '(tx, err) <- native_call (call_BeginTx (C_DB (wdb_DB db)) ctx opts)
                            (sql_BeginTx sql (C_DB (wdb_DB db)) ctx opts) ;;
  match err with
  | Some _ => ret (None, err)
  | None => ret (Some (Tx_wrappedTx {| wtx_tx := tx; wtx_Queryer := WrapQueryer (Q_Tx tx) |}),
                 None)
  end.

(** [Close] is promoted from the embedded [*sql.DB]. *)
Definition wrappedDB_Close (db : wrappedDB) : M S error :=
  native_call (call_Close (C_DB (wdb_DB db))) (sql_Close sql (C_DB (wdb_DB db))).

Definition wrappedDB_Exec (db : wrappedDB) (ctx : Context) (query : string)
    (args : list value) : M S (option sql_Result * error) :=
  wrappedQueryer_Exec (wdb_queryer db) ctx query args.

Definition wrappedDB_Prepare (db : wrappedDB) (ctx : Context) (query : string)
    : M S (option Stmt * error) :=
  wrappedQueryer_Prepare (wdb_queryer db) ctx query.

Definition wrappedDB_Query (db : wrappedDB) (ctx : Context) (query : string)
    (args : list value) : M S (option Rows * error) :=
  wrappedQueryer_Query (wdb_queryer db) ctx query args.

Definition wrappedDB_QueryRow (db : wrappedDB) (ctx : Context) (query : string)
    (args : list value) : M S Row :=
  wrappedQueryer_QueryRow (wdb_queryer db) ctx query args.

(** *** wrappedConn *)

Definition wrappedConn_BeginTx (c : wrappedConn) (ctx : Context) (opts : option TxOptions)
    : M S (option Tx * error) :=
  '(tx, err) <- native_call (call_BeginTx (wc_c c) ctx opts)
                            (sql_BeginTx sql (wc_c c) ctx opts) ;;
  match err with
  | Some _ => ret (None, err)
  | None => ret (Some (Tx_wrappedTx {| wtx_tx := tx; wtx_Queryer := WrapQueryer (Q_Tx tx) |}),
                 None)
  end.

Definition wrappedConn_Close (c : wrappedConn) : M S error :=
  native_call (call_Close (wc_c c)) (sql_Close sql (wc_c c)).

Definition wrappedConn_Ping (c : wrappedConn) (ctx : Context) : M S error :=
  native_call (call_PingContext (wc_c c) ctx) (sql_PingContext sql (wc_c c) ctx).

(** The [Queryer] methods of a [wrappedConn] are those of its embedded field. *)
Definition wrappedConn_Exec (c : wrappedConn) := wrappedQueryer_Exec (wc_Queryer c).
Definition wrappedConn_Prepare (c : wrappedConn) := wrappedQueryer_Prepare (wc_Queryer c).
Definition wrappedConn_Query (c : wrappedConn) := wrappedQueryer_Query (wc_Queryer c).
Definition wrappedConn_QueryRow (c : wrappedConn) := wrappedQueryer_QueryRow (wc_Queryer c).

(** [Close] through the [Conn] interface. *)
Definition Conn_Close (c : Conn) : M S error :=
  match c with
  | Conn_wrappedConn c => wrappedConn_Close c
  | Conn_wrappedDB db => wrappedDB_Close db
  end.

(** [conn.Close()] deferred in a function whose result is that of [body]:
    [body] runs first, then the connection is closed and what [Close]
    returns is dropped. *)
Definition defer_Close {A} (conn : Conn) (body : M S A) : M S A :=
  a <- body ;;
  _ <- Conn_Close conn ;;
  ret a.

(** [Ping] on a [wrappedDB].  [conn] is what [wrappedDB_Conn] returned, and
    [conn.Ping] is called through the [Conn] interface: on a [wrappedConn] it
    is [wrappedConn_Ping].  The other two branches are never taken, since
    [wrappedDB_Conn] returns a [wrappedConn] whenever it returns a nil error
    (lemma [wrappedDB_Conn_dynamic_type] below); [Conn_Ping], defined next,
    gives the dispatch on any [Conn]. *)
Definition wrappedDB_Ping (db : wrappedDB) (ctx : Context) : M S error :=
  '(conn, err) <- wrappedDB_Conn db ctx ;;
  match err with
  | Some _ => ret err
  | None =>
      match conn with
      | Some (Conn_wrappedConn c as conn) => defer_Close conn (wrappedConn_Ping c ctx)
      | Some (Conn_wrappedDB _) | None => ret None
      end
  end.

(** [Ping] through the [Conn] interface. *)
Definition Conn_Ping (c : Conn) (ctx : Context) : M S error :=
  match c with
  | Conn_wrappedConn c => wrappedConn_Ping c ctx
  | Conn_wrappedDB db => wrappedDB_Ping db ctx
  end.

(** *** wrappedTx *)

Definition wrappedTx_Commit (tx : wrappedTx) : M S error :=
  native_call (call_Tx_Commit (wtx_tx tx)) (sql_Tx_Commit sql (wtx_tx tx)).

Definition wrappedTx_Rollback (tx : wrappedTx) : M S error :=
  native_call (call_Tx_Rollback (wtx_tx tx)) (sql_Tx_Rollback sql (wtx_tx tx)).

Definition wrappedTx_Stmt (tx : wrappedTx) (ctx : Context) (stmt : Stmt) : M S Stmt :=
  s <- native_call (call_Tx_StmtContext (wtx_tx tx) ctx (wrappedStmt_Unwrap stmt))
                   (sql_Tx_StmtContext sql (wtx_tx tx) ctx (wrappedStmt_Unwrap stmt)) ;;
  ret (WrapStmt s).

Definition wrappedTx_Exec (tx : wrappedTx) := wrappedQueryer_Exec (wtx_Queryer tx).
Definition wrappedTx_Prepare (tx : wrappedTx) := wrappedQueryer_Prepare (wtx_Queryer tx).
Definition wrappedTx_Query (tx : wrappedTx) := wrappedQueryer_Query (wtx_Queryer tx).
Definition wrappedTx_QueryRow (tx : wrappedTx) := wrappedQueryer_QueryRow (wtx_Queryer tx).

(** *** connTx and the [Tx] interface

    [connTx] has [Commit] and [Rollback] of its own and takes every other
    method from the [Tx] it embeds. *)

Fixpoint Tx_Commit (t : Tx) : M S error :=
  match t with
  | Tx_wrappedTx t => wrappedTx_Commit t
  | Tx_connTx t => connTx_Commit t
  end
with connTx_Commit (tx : connTx) : M S error :=
  match tx with
  | mk_connTx c t => defer_Close c (Tx_Commit t)
  end.

Fixpoint Tx_Rollback (t : Tx) : M S error :=
  match t with
  | Tx_wrappedTx t => wrappedTx_Rollback t
  | Tx_connTx t => connTx_Rollback t
  end
with connTx_Rollback (tx : connTx) : M S error :=
  match tx with
  | mk_connTx c t => defer_Close c (Tx_Rollback t)
  end.

Fixpoint Tx_Stmt (t : Tx) (ctx : Context) (stmt : Stmt) : M S Stmt :=
  match t with
  | Tx_wrappedTx t => wrappedTx_Stmt t ctx stmt
  | Tx_connTx (mk_connTx _ t) => Tx_Stmt t ctx stmt
  end.

Fixpoint Tx_Exec (t : Tx) (ctx : Context) (query : string) (args : list value)
    : M S (option sql_Result * error) :=
  match t with
  | Tx_wrappedTx t => wrappedTx_Exec t ctx query args
  | Tx_connTx (mk_connTx _ t) => Tx_Exec t ctx query args
  end.

Fixpoint Tx_Query (t : Tx) (ctx : Context) (query : string) (args : list value)
    : M S (option Rows * error) :=
  match t with
  | Tx_wrappedTx t => wrappedTx_Query t ctx query args
  | Tx_connTx (mk_connTx _ t) => Tx_Query t ctx query args
  end.

Fixpoint Tx_QueryRow (t : Tx) (ctx : Context) (query : string) (args : list value)
    : M S Row :=
  match t with
  | Tx_wrappedTx t => wrappedTx_QueryRow t ctx query args
  | Tx_connTx (mk_connTx _ t) => Tx_QueryRow t ctx query args
  end.

(** *** The [Conn] interface *)

Definition Conn_BeginTx (c : Conn) (ctx : Context) (opts : option TxOptions)
    : M S (option Tx * error) :=
  match c with
  | Conn_wrappedConn c => wrappedConn_BeginTx c ctx opts
  | Conn_wrappedDB db => wrappedDB_BeginTx db ctx opts
  end.

Definition Conn_Exec (c : Conn) (ctx : Context) (query : string) (args : list value)
    : M S (option sql_Result * error) :=
  match c with
  | Conn_wrappedConn c => wrappedConn_Exec c ctx query args
  | Conn_wrappedDB db => wrappedDB_Exec db ctx query args
  end.

Definition Conn_Query (c : Conn) (ctx : Context) (query : string) (args : list value)
    : M S (option Rows * error) :=
  match c with
  | Conn_wrappedConn c => wrappedConn_Query c ctx query args
  | Conn_wrappedDB db => wrappedDB_Query db ctx query args
  end.

Definition Conn_QueryRow (c : Conn) (ctx : Context) (query : string) (args : list value)
    : M S Row :=
  match c with
  | Conn_wrappedConn c => wrappedConn_QueryRow c ctx query args
  | Conn_wrappedDB db => wrappedDB_QueryRow db ctx query args
  end.

(** [Prepare] through the [Tx] and [Conn] interfaces. *)
Fixpoint Tx_Prepare (t : Tx) (ctx : Context) (query : string) : M S (option Stmt * error) :=
  match t with
  | Tx_wrappedTx t => wrappedTx_Prepare t ctx query
  | Tx_connTx (mk_connTx _ t) => Tx_Prepare t ctx query
  end.

Definition Conn_Prepare (c : Conn) (ctx : Context) (query : string)
    : M S (option Stmt * error) :=
  match c with
  | Conn_wrappedConn c => wrappedConn_Prepare c ctx query
  | Conn_wrappedDB db => wrappedDB_Prepare db ctx query
  end.

End Sqler.

(** ** A scripted stand-in for database/sql

    The package exists so that callers can put test doubles behind its
    interfaces.  [Fake] is one for the native side: it hands out fresh
    addresses, remembers which connections were released and answers with the
    errors its script holds.  The examples below run the wrappers against it. *)

Module Fake.

Record state : Type := mk {
  fresh : nat;                            (* next address handed out *)
  released : list nat;                    (* connections closed so far *)
  lease_err : error;                      (* what DB.Conn answers *)
  commit_err : error;                     (* what Tx.Commit answers *)
  rollback_err : error;                   (* what Tx.Rollback answers *)
  close_err : error;                      (* what an effective Close answers *)
  ping_err : error;                       (* what a ping of a live connection answers *)
  exec_out : option sql_Result * error;   (* what an execution answers *)
  query_err : error;                      (* what a query or a prepare answers *)
  has_row : bool                          (* whether a single-row query finds a row *)
}.

Definition ErrConnDone : string := "sql: connection is already closed".
Definition ErrNoRows : string := "sql: no rows in result set".

Definition healthy : state :=
  mk 1 [] None None None None None (Some {| LastInsertId := 7; RowsAffected := 1 |}, None)
     None true.

Definition alloc {k} (s : state) : ptr k * state :=
  (at_addr (fresh s),
   mk (Datatypes.S (fresh s)) (released s) (lease_err s) (commit_err s) (rollback_err s)
      (close_err s) (ping_err s) (exec_out s) (query_err s) (has_row s)).

Definition release (a : nat) (s : state) : state :=
  mk (fresh s) (a :: released s) (lease_err s) (commit_err s) (rollback_err s)
     (close_err s) (ping_err s) (exec_out s) (query_err s) (has_row s).

Definition is_released (c : SQLConn) (s : state) : bool :=
  match c with
  | C_Conn (at_addr a) => existsb (Nat.eqb a) (released s)
  | _ => false
  end.

Definition alloc_or {k} (e : error) (s : state) : (ptr k * error) * state :=
  match e with
  | Some _ => ((null, e), s)
  | None => let (p, s') := alloc s in ((p, None), s')
  end.

Definition open (driverName dataSourceName : string) (s : state)
    : (sql_DB * error) * state :=
  if String.eqb dataSourceName ""
  then ((null, Some "fake: missing data source name"), s)
  else alloc_or None s.

Definition beginTx (c : SQLConn) (s : state) : (sql_Tx * error) * state :=
  if is_released c s then ((null, Some ErrConnDone), s) else alloc_or None s.

Definition close (c : SQLConn) (s : state) : error * state :=
  if is_released c s then (Some ErrConnDone, s)
  else match c with
       | C_Conn (at_addr a) => (close_err s, release a s)
       | _ => (close_err s, s)
       end.

Definition ping (c : SQLConn) (s : state) : error * state :=
  if is_released c s then (Some ErrConnDone, s) else (ping_err s, s).

Definition scan (dest : list nat) (m : Mem) (s : state) : (error * Mem) * state :=
  if has_row s
  then match dest with
       | d :: _ => ((None, (d, VInt 1) :: m), s)
       | [] => ((Some "sql: expected 1 destination arguments in Scan, not 0", m), s)
       end
  else ((Some ErrNoRows, m), s).

Definition driver : Driver state := {|
  sql_Open := open;
  sql_DB_Conn := fun _ _ s => alloc_or (lease_err s) s;
  sql_BeginTx := fun c _ _ => beginTx c;
  sql_Close := close;
  sql_PingContext := fun c _ => ping c;
  sql_Tx_Commit := fun _ s => (commit_err s, s);
  sql_Tx_Rollback := fun _ s => (rollback_err s, s);
  sql_Tx_StmtContext := fun _ _ _ s => alloc s;
  sql_ExecContext := fun _ _ _ _ s => (exec_out s, s);
  sql_PrepareContext := fun _ _ _ s => alloc_or (query_err s) s;
  sql_QueryContext := fun _ _ _ _ s => alloc_or (query_err s) s;
  sql_QueryRowContext := fun _ _ _ _ s => alloc s;
  sql_Stmt_ExecContext := fun _ _ _ s => (exec_out s, s);
  sql_Stmt_QueryContext := fun _ _ _ s => alloc_or (query_err s) s;
  sql_Stmt_QueryRowContext := fun _ _ _ s => alloc s;
  sql_Row_Scan := fun _ => scan
|}.

(** Scripts used by the examples. *)
Definition failing_commit : state :=
  mk 1 [] None (Some "commit failed") (Some "rollback failed") None None
     (Some {| LastInsertId := 7; RowsAffected := 1 |}, None) None true.

Definition failing_close : state :=
  mk 1 [] None None None (Some "close failed") None
     (Some {| LastInsertId := 7; RowsAffected := 1 |}, None) None true.

Definition failing_exec : state :=
  mk 1 [] None None None None None
     (Some {| LastInsertId := 0; RowsAffected := 0 |}, Some "constraint violation")
     (Some "syntax error") false.

(** An empty world over a script. *)
Definition world (s : state) : World state := mkWorld [] [] s.

End Fake.

(** ** Notions used in the statements *)

(** The native connection a [Conn] releases when it is closed. *)
Definition Conn_native (c : Conn) : SQLConn :=
  match c with
  | Conn_wrappedConn c => wc_c c
  | Conn_wrappedDB db => C_DB (wdb_DB db)
  end.

(** The [wrappedTx] at the bottom of a [Tx]: the one whose promoted methods
    a chain of [connTx] ends up calling. *)
Fixpoint Tx_wrapped (t : Tx) : wrappedTx :=
  match t with
  | Tx_wrappedTx t => t
  | Tx_connTx (mk_connTx _ t) => Tx_wrapped t
  end.

Definition is_errRow (r : Row) : bool :=
  match r with
  | Row_sql _ => false
  | Row_errRow _ => true
  end.

(** The world after one more native call [c] that left the library in [s]. *)
Definition after {S} (w : World S) (c : Call) (s : S) : World S :=
  mkWorld (trace w ++ [c]) (mem w) s.

(** The queryer whose methods a [Conn] promotes or forwards to. *)
Definition Conn_queryer (c : Conn) : Queryer :=
  match c with
  | Conn_wrappedConn c => wc_Queryer c
  | Conn_wrappedDB db => wdb_queryer db
  end.

(** [m], run in [w], makes the one native call [c], answered by [op], and
    returns the native row it was given, as it is. *)
Definition returns_native_row {S} (m : M S Row) (c : Call) (op : S -> sql_Row * S)
    (w : World S) : Prop :=
  m w = (Row_sql (fst (op (drv w))), after w c (snd (op (drv w)))).

(** The same for a cursor: on a nil error the native rows, as they are; on
    an error, the nil cursor and that error. *)
Definition returns_native_rows {S} (m : M S (option Rows * error)) (c : Call)
    (op : S -> (sql_Rows * error) * S) (w : World S) : Prop :=
  m w = (match snd (fst (op (drv w))) with
         | Some _ => None
         | None => Some (fst (fst (op (drv w))))
         end,
         snd (fst (op (drv w))), after w c (snd (op (drv w)))).

(** A run against [Fake]: a connection is leased from the pool, a
    transaction is begun on it through the [Conn] interface and committed
    (or rolled back); then the connection is pinged.  The result is the
    leased connection, what commit and ping returned, and the final world. *)
Definition leased_tx_run (commit : bool) (script : Fake.state)
    : option (Conn * error * error * World Fake.state) :=
  match wrappedDB_Conn Fake.driver (WrapDB (at_addr 0)) 0 (Fake.world script) with
  | (Some conn, None, w1) =>
      match Conn_BeginTx Fake.driver conn 0 None w1 with
      | (Some tx, None, w2) =>
          let (e, w3) := (if commit then Tx_Commit Fake.driver tx
                          else Tx_Rollback Fake.driver tx) w2 in
          let (p, w4) := Conn_Ping Fake.driver conn 0 w3 in
          Some (conn, e, p, w4)
      | _ => None
      end
  | _ => None
  end.

(** The objects of the examples: a leased connection, a transaction on it
    as [BeginTx] builds it, and a [connTx] owning both. *)
Definition leased_conn : Conn := WrapConn (C_Conn (at_addr 1)).

Definition plain_tx : Tx :=
  Tx_wrappedTx {| wtx_tx := at_addr 2; wtx_Queryer := WrapQueryer (Q_Tx (at_addr 2)) |}.

Definition owning_tx : connTx := mk_connTx leased_conn plain_tx.

(** The world [leased_tx_run] ends in when the script is [s] and the
    transaction ended with the native call [c]. *)
Definition leased_tx_world (c : Call) (s : Fake.state) : World Fake.state :=
  mkWorld [call_DB_Conn (at_addr 0) 0; call_BeginTx (C_Conn (at_addr 1)) 0 None; c;
           call_PingContext (C_Conn (at_addr 1)) 0] []
          (snd (Fake.alloc (k := kTx) (snd (Fake.alloc (k := kConn) s)))).

(** [m] adds the native calls [cs], in this order, to those made before it,
    in whatever world it runs. *)
Definition makes {S A} (m : M S A) (cs : list Call) : Prop :=
  forall w : World S, trace (snd (m w)) = trace w ++ cs.

(** The connections a [Tx] owns through its [connTx] layers, in the order
    in which its [Commit] and [Rollback] close them: innermost first. *)
Fixpoint Tx_owned (t : Tx) : list Conn :=
  match t with
  | Tx_wrappedTx _ => []
  | Tx_connTx (mk_connTx c t) => Tx_owned t ++ [c]
  end.

(** The library's state after the native [Close] of each of [cs], in order. *)
Definition close_all {S} (sql : Driver S) (cs : list SQLConn) (s : S) : S :=
  fold_left (fun s c => snd (sql_Close sql c s)) cs s.

(** A caller's program: prepare a statement on [q], rebind it to the
    transaction [t] and execute the rebound statement. *)
Definition prepare_rebind_exec {S} (sql : Driver S) (q : wrappedQueryer) (t : Tx)
    (ctx : Context) (query : string) (args : list value)
    : M S (option sql_Result * error) :=
  '(stmt, e) <- wrappedQueryer_Prepare sql q ctx query ;;
  match e, stmt with
  | None, Some stmt =>
      rebound <- Tx_Stmt sql t ctx stmt ;;
      wrappedStmt_Exec sql rebound ctx args
  | _, _ => ret (None, e)
  end.

(** A caller's program: close the same connection twice. *)
Definition close_twice {S} (sql : Driver S) (c : Conn) : M S (error * error) :=
  e1 <- Conn_Close sql c ;;
  e2 <- Conn_Close sql c ;;
  ret (e1, e2).

(** Every method of [conn] other than [Ping] makes one native call, on the
    native object [n]: the queries on [n] as a queryer, [BeginTx] and
    [Close] on [n] itself. *)
Definition Conn_bound_to {S} (sql : Driver S) (conn : Conn) (n : SQLConn) : Prop :=
  forall ctx query args opts,
    makes (Conn_Exec sql conn ctx query args)
          [call_ExecContext (SQLConn_SQLQueryer n) ctx query args] /\
    makes (Conn_Query sql conn ctx query args)
          [call_QueryContext (SQLConn_SQLQueryer n) ctx query args] /\
    makes (Conn_QueryRow sql conn ctx query args)
          [call_QueryRowContext (SQLConn_SQLQueryer n) ctx query args] /\
    makes (Conn_Prepare sql conn ctx query)
          [call_PrepareContext (SQLConn_SQLQueryer n) ctx query] /\
    makes (Conn_BeginTx sql conn ctx opts) [call_BeginTx n ctx opts] /\
    makes (Conn_Close sql conn) [call_Close n].

(** Every method of [tx] makes one native call, on the native transaction
    [ntx]. *)
Definition Tx_bound_to {S} (sql : Driver S) (tx : Tx) (ntx : sql_Tx) : Prop :=
  forall ctx query args stmt,
    makes (Tx_Exec sql tx ctx query args) [call_ExecContext (Q_Tx ntx) ctx query args] /\
    makes (Tx_Query sql tx ctx query args) [call_QueryContext (Q_Tx ntx) ctx query args] /\
    makes (Tx_QueryRow sql tx ctx query args)
          [call_QueryRowContext (Q_Tx ntx) ctx query args] /\
    makes (Tx_Prepare sql tx ctx query) [call_PrepareContext (Q_Tx ntx) ctx query] /\
    makes (Tx_Stmt sql tx ctx stmt)
          [call_Tx_StmtContext ntx ctx (wrappedStmt_Unwrap stmt)] /\
    makes (Tx_Commit sql tx) [call_Tx_Commit ntx] /\
    makes (Tx_Rollback sql tx) [call_Tx_Rollback ntx].

(** ** Basic facts about the monad *)

Section Facts.

Context {S : Type} (sql : Driver S).

Lemma native_call_run {A} (c : Call) (op : S -> A * S) (w : World S) :
  native_call c op w = (fst (op (drv w)), after w c (snd (op (drv w)))).
Proof.
  unfold native_call, after. now destruct (op (drv w)).
Qed.

Lemma bind_run {A B} (m : M S A) (k : A -> M S B) (w : World S) :
  bind m k w = k (fst (m w)) (snd (m w)).
Proof.
  unfold bind. now destruct (m w).
Qed.

Lemma defer_Close_run {A} (conn : Conn) (body : M S A) (w : World S) :
  defer_Close sql conn body w =
    (fst (body w), snd (Conn_Close sql conn (snd (body w)))).
Proof.
  unfold defer_Close. rewrite !bind_run. reflexivity.
Qed.

Lemma Conn_Close_run (c : Conn) (w : World S) :
  Conn_Close sql c w =
    (fst (sql_Close sql (Conn_native c) (drv w)),
     after w (call_Close (Conn_native c)) (snd (sql_Close sql (Conn_native c) (drv w)))).
Proof.
  destruct c; apply native_call_run.
Qed.

Lemma wrappedQueryer_Exec_run (q : wrappedQueryer) ctx query args (w : World S) :
  wrappedQueryer_Exec sql q ctx query args w =
    let '(r, e, s) := sql_ExecContext sql (wq_SQLQueryer q) ctx query args (drv w) in
    (match e with Some _ => None | None => r end, e,
     after w (call_ExecContext (wq_SQLQueryer q) ctx query args) s).
Proof.
  unfold wrappedQueryer_Exec. rewrite bind_run, native_call_run.
  destruct (sql_ExecContext _ _ _ _ _ _) as [[r [e|]] s]; reflexivity.
Qed.

Lemma wrappedStmt_Exec_run (st : wrappedStmt) ctx args (w : World S) :
  wrappedStmt_Exec sql st ctx args w =
    let '(r, e, s) := sql_Stmt_ExecContext sql (ws_Stmt st) ctx args (drv w) in
    (match e with Some _ => None | None => r end, e,
     after w (call_Stmt_ExecContext (ws_Stmt st) ctx args) s).
Proof.
  unfold wrappedStmt_Exec. rewrite bind_run, native_call_run.
  destruct (sql_Stmt_ExecContext _ _ _ _ _) as [[r [e|]] s]; reflexivity.
Qed.

Lemma wrappedQueryer_QueryRow_run (q : wrappedQueryer) ctx query args (w : World S) :
  wrappedQueryer_QueryRow sql q ctx query args w =
    let (r, s) := sql_QueryRowContext sql (wq_SQLQueryer q) ctx query args (drv w) in
    (Row_sql r, after w (call_QueryRowContext (wq_SQLQueryer q) ctx query args) s).
Proof.
  unfold wrappedQueryer_QueryRow. rewrite bind_run, native_call_run.
  now destruct (sql_QueryRowContext _ _ _ _ _ _).
Qed.

Lemma wrappedStmt_QueryRow_run (st : wrappedStmt) ctx args (w : World S) :
  wrappedStmt_QueryRow sql st ctx args w =
    let (r, s) := sql_Stmt_QueryRowContext sql (ws_Stmt st) ctx args (drv w) in
    (Row_sql r, after w (call_Stmt_QueryRowContext (ws_Stmt st) ctx args) s).
Proof.
  unfold wrappedStmt_QueryRow. rewrite bind_run, native_call_run.
  now destruct (sql_Stmt_QueryRowContext _ _ _ _ _).
Qed.

Lemma wrappedQueryer_Query_run (q : wrappedQueryer) ctx query args (w : World S) :
  wrappedQueryer_Query sql q ctx query args w =
    let '(rows, e, s) := sql_QueryContext sql (wq_SQLQueryer q) ctx query args (drv w) in
    (match e with Some _ => None | None => Some rows end, e,
     after w (call_QueryContext (wq_SQLQueryer q) ctx query args) s).
Proof.
  unfold wrappedQueryer_Query. rewrite bind_run, native_call_run.
  destruct (sql_QueryContext _ _ _ _ _ _) as [[r [e|]] s]; reflexivity.
Qed.

Lemma wrappedStmt_Query_run (st : wrappedStmt) ctx args (w : World S) :
  wrappedStmt_Query sql st ctx args w =
    let '(rows, e, s) := sql_Stmt_QueryContext sql (ws_Stmt st) ctx args (drv w) in
    (match e with Some _ => None | None => Some rows end, e,
     after w (call_Stmt_QueryContext (ws_Stmt st) ctx args) s).
Proof.
  unfold wrappedStmt_Query. rewrite bind_run, native_call_run.
  destruct (sql_Stmt_QueryContext _ _ _ _ _) as [[r [e|]] s]; reflexivity.
Qed.

(** Whatever [wrappedDB_Conn] returns with a nil error is a [wrappedConn]
    around the native connection just leased. *)
Lemma wrappedDB_Conn_dynamic_type (db : wrappedDB) ctx (w w' : World S) conn :
  wrappedDB_Conn sql db ctx w = (conn, None, w') ->
  exists c, conn = Some (WrapConn (C_Conn c)).
Proof.
  unfold wrappedDB_Conn. rewrite bind_run, native_call_run.
  destruct (sql_DB_Conn _ _ _ _) as [[c [e|]] s]; cbn; intros H.
  - discriminate.
  - injection H as <- _. now exists c.
Qed.

(** [wrappedDB_Ping] satisfies the equation of the source, with [conn.Ping]
    dispatched through the interface. *)
Lemma wrappedDB_Ping_unfold (db : wrappedDB) ctx (w : World S) :
  wrappedDB_Ping sql db ctx w =
    ('(conn, e) <- wrappedDB_Conn sql db ctx ;;
     match e, conn with
     | Some _, _ => ret e
     | None, Some conn => defer_Close sql conn (Conn_Ping sql conn ctx)
     | None, None => ret None
     end) w.
Proof.
  unfold wrappedDB_Ping. rewrite !bind_run.
  destruct (wrappedDB_Conn sql db ctx w) as [[conn e] w'] eqn:E. cbn.
  destruct e as [e|]; [reflexivity|].
  destruct (wrappedDB_Conn_dynamic_type _ _ _ _ _ E) as [c ->]. reflexivity.
Qed.

(** The methods a [connTx] promotes reach the [wrappedTx] at the bottom. *)
Lemma Tx_Stmt_wrapped (t : Tx) ctx stmt :
  Tx_Stmt sql t ctx stmt = wrappedTx_Stmt sql (Tx_wrapped t) ctx stmt.
Proof.
  revert t. fix IH 1. intros [t | [c t]]; cbn; [reflexivity | apply IH].
Qed.

Lemma Tx_QueryRow_wrapped (t : Tx) ctx query args :
  Tx_QueryRow sql t ctx query args = wrappedTx_QueryRow sql (Tx_wrapped t) ctx query args.
Proof.
  revert t. fix IH 1. intros [t | [c t]]; cbn; [reflexivity | apply IH].
Qed.

Lemma Tx_Query_wrapped (t : Tx) ctx query args :
  Tx_Query sql t ctx query args = wrappedTx_Query sql (Tx_wrapped t) ctx query args.
Proof.
  revert t. fix IH 1. intros [t | [c t]]; cbn; [reflexivity | apply IH].
Qed.

Lemma Tx_Exec_wrapped (t : Tx) ctx query args :
  Tx_Exec sql t ctx query args = wrappedTx_Exec sql (Tx_wrapped t) ctx query args.
Proof.
  revert t. fix IH 1. intros [t | [c t]]; cbn; [reflexivity | apply IH].
Qed.

Lemma Conn_Exec_queryer (c : Conn) ctx query args :
  Conn_Exec sql c ctx query args = wrappedQueryer_Exec sql (Conn_queryer c) ctx query args.
Proof.
  now destruct c.
Qed.

Lemma Conn_QueryRow_queryer (c : Conn) ctx query args :
  Conn_QueryRow sql c ctx query args =
    wrappedQueryer_QueryRow sql (Conn_queryer c) ctx query args.
Proof.
  now destruct c.
Qed.

Lemma Conn_Query_queryer (c : Conn) ctx query args :
  Conn_Query sql c ctx query args = wrappedQueryer_Query sql (Conn_queryer c) ctx query args.
Proof.
  now destruct c.
Qed.

Lemma wrappedQueryer_QueryRow_native (q : wrappedQueryer) ctx query args (w : World S) :
  returns_native_row (wrappedQueryer_QueryRow sql q ctx query args)
    (call_QueryRowContext (wq_SQLQueryer q) ctx query args)
    (sql_QueryRowContext sql (wq_SQLQueryer q) ctx query args) w.
Proof.
  unfold returns_native_row. rewrite wrappedQueryer_QueryRow_run.
  now destruct (sql_QueryRowContext _ _ _ _ _ _).
Qed.

Lemma wrappedStmt_QueryRow_native (st : wrappedStmt) ctx args (w : World S) :
  returns_native_row (wrappedStmt_QueryRow sql st ctx args)
    (call_Stmt_QueryRowContext (ws_Stmt st) ctx args)
    (sql_Stmt_QueryRowContext sql (ws_Stmt st) ctx args) w.
Proof.
  unfold returns_native_row. rewrite wrappedStmt_QueryRow_run.
  now destruct (sql_Stmt_QueryRowContext _ _ _ _ _).
Qed.

Lemma wrappedQueryer_Query_native (q : wrappedQueryer) ctx query args (w : World S) :
  returns_native_rows (wrappedQueryer_Query sql q ctx query args)
    (call_QueryContext (wq_SQLQueryer q) ctx query args)
    (sql_QueryContext sql (wq_SQLQueryer q) ctx query args) w.
Proof.
  unfold returns_native_rows. rewrite wrappedQueryer_Query_run.
  now destruct (sql_QueryContext _ _ _ _ _ _) as [[r e] s].
Qed.

Lemma wrappedStmt_Query_native (st : wrappedStmt) ctx args (w : World S) :
  returns_native_rows (wrappedStmt_Query sql st ctx args)
    (call_Stmt_QueryContext (ws_Stmt st) ctx args)
    (sql_Stmt_QueryContext sql (ws_Stmt st) ctx args) w.
Proof.
  unfold returns_native_rows. rewrite wrappedStmt_Query_run.
  now destruct (sql_Stmt_QueryContext _ _ _ _ _) as [[r e] s].
Qed.

Lemma returns_native_row_not_errRow (m : M S Row) c op (w : World S) :
  returns_native_row m c op w -> is_errRow (fst (m w)) = false.
Proof.
  unfold returns_native_row. now intros ->.
Qed.

Lemma Row_Scan_native (r : sql_Row) (dest : list nat) (w : World S) :
  Row_Scan sql (Row_sql r) dest w =
    (fst (fst (sql_Row_Scan sql r dest (mem w) (drv w))),
     mkWorld (trace w ++ [call_Row_Scan r dest])
             (snd (fst (sql_Row_Scan sql r dest (mem w) (drv w))))
             (snd (sql_Row_Scan sql r dest (mem w) (drv w)))).
Proof.
  cbn. unfold native_scan. now destruct (sql_Row_Scan _ _ _ _ _) as [[e m] s].
Qed.

(** A transaction begun through the [Conn] interface is a [wrappedTx]. *)
Lemma Conn_BeginTx_run (c : Conn) ctx opts (w : World S) :
  Conn_BeginTx sql c ctx opts w =
    let '(tx, e, s) := sql_BeginTx sql (Conn_native c) ctx opts (drv w) in
    (match e with
     | Some _ => None
     | None => Some (Tx_wrappedTx {| wtx_tx := tx; wtx_Queryer := WrapQueryer (Q_Tx tx) |})
     end, e, after w (call_BeginTx (Conn_native c) ctx opts) s).
Proof.
  destruct c as [c | db]; cbn;
    [unfold wrappedConn_BeginTx | unfold wrappedDB_BeginTx];
    rewrite bind_run, native_call_run;
    destruct (sql_BeginTx _ _ _ _ _) as [[tx [e|]] s]; reflexivity.
Qed.

End Facts.

(** ** The claims *)

(** C3.  Wrapping and then unwrapping is the identity on the native object:
    [WrapDB h] unwraps to the very pointer [h], and [WrapStmt s] to [s],
    for every pointer, the nil one included. *)
Theorem Unwrap_of_Wrap :
  (forall h : sql_DB, wrappedDB_Unwrap (WrapDB h) = h) /\
  (forall s : sql_Stmt, wrappedStmt_Unwrap (WrapStmt s) = s).
Proof.
  split; intros; reflexivity.
Qed.

(** C9.  [Open] calls the native open once.  If that fails, [Open] returns
    the nil handle with that same error; if it succeeds, the wrapped handle
    with a nil error.  No second call is made in either case. *)
Theorem Open_surfaces_failure {S} (sql : Driver S) (driverName dataSourceName : string)
    (w : World S) (db : sql_DB) (e : error) (s : S) :
  sql_Open sql driverName dataSourceName (drv w) = (db, e, s) ->
  let w' := after w (call_Open driverName dataSourceName) s in
  (forall msg, e = Some msg ->
     Open sql driverName dataSourceName w = (None, Some msg, w')) /\
  (e = None ->
     Open sql driverName dataSourceName w = (Some (WrapDB db), None, w')).
Proof.
  intros H w'. unfold Open. rewrite bind_run, native_call_run, H. cbn.
  split.
  - intros msg ->. reflexivity.
  - intros ->. reflexivity.
Qed.

Lemma Open_surfaces_failure_witness :
  Open Fake.driver "fake" "" (Fake.world Fake.healthy) =
    (None, Some "fake: missing data source name",
     mkWorld [call_Open "fake" ""] [] Fake.healthy).
Proof.
  apply (proj1 (Open_surfaces_failure Fake.driver "fake" "" (Fake.world Fake.healthy)
                  null (Some "fake: missing data source name") Fake.healthy eq_refl)).
  reflexivity.
Defined.

Example Open_succeeds :
  Open Fake.driver "fake" "file:test.db" (Fake.world Fake.healthy) =
    (Some (WrapDB (at_addr 1)), None,
     mkWorld [call_Open "fake" "file:test.db"] [] (snd (Fake.alloc (k := kDB) Fake.healthy))).
Proof. reflexivity. Qed.

(** C4.  [Exec] on a wrapped queryer or statement makes one native
    execution.  If it succeeds, [Exec] returns the driver's result itself and
    a nil error; if it fails, a nil result and the driver's error itself,
    whatever result the driver returned along with it.  [Exec] on a database
    handle, a connection or a transaction is [Exec] on its queryer. *)
Theorem Exec_verbatim {S} (sql : Driver S) :
  (forall (q : wrappedQueryer) ctx query args (w : World S) r e s,
     sql_ExecContext sql (wq_SQLQueryer q) ctx query args (drv w) = (r, e, s) ->
     let w' := after w (call_ExecContext (wq_SQLQueryer q) ctx query args) s in
     (e = None -> wrappedQueryer_Exec sql q ctx query args w = (r, None, w')) /\
     (forall msg, e = Some msg ->
        wrappedQueryer_Exec sql q ctx query args w = (None, Some msg, w'))) /\
  (forall (st : wrappedStmt) ctx args (w : World S) r e s,
     sql_Stmt_ExecContext sql (ws_Stmt st) ctx args (drv w) = (r, e, s) ->
     let w' := after w (call_Stmt_ExecContext (ws_Stmt st) ctx args) s in
     (e = None -> wrappedStmt_Exec sql st ctx args w = (r, None, w')) /\
     (forall msg, e = Some msg ->
        wrappedStmt_Exec sql st ctx args w = (None, Some msg, w'))) /\
  (forall ctx query args,
     (forall db : wrappedDB,
        wrappedDB_Exec sql db ctx query args =
          wrappedQueryer_Exec sql (wdb_queryer db) ctx query args) /\
     (forall c : Conn,
        Conn_Exec sql c ctx query args =
          wrappedQueryer_Exec sql (Conn_queryer c) ctx query args) /\
     (forall t : Tx,
        Tx_Exec sql t ctx query args =
          wrappedQueryer_Exec sql (wtx_Queryer (Tx_wrapped t)) ctx query args)).
Proof.
  repeat apply conj.
  - intros q ctx query args w r e s H w'.
    rewrite wrappedQueryer_Exec_run, H.
    split; [intros -> | intros msg ->]; reflexivity.
  - intros st ctx args w r e s H w'.
    rewrite wrappedStmt_Exec_run, H.
    split; [intros -> | intros msg ->]; reflexivity.
  - intros ctx query args. repeat apply conj.
    + reflexivity.
    + intros c. apply Conn_Exec_queryer.
    + intros t. apply Tx_Exec_wrapped.
Qed.

Lemma Exec_verbatim_witness :
  wrappedQueryer_Exec Fake.driver (WrapQueryer (Q_DB (at_addr 0))) 0 "DELETE FROM t" []
      (Fake.world Fake.failing_exec) =
    (None, Some "constraint violation",
     mkWorld [call_ExecContext (Q_DB (at_addr 0)) 0 "DELETE FROM t" []] [] Fake.failing_exec).
Proof.
  apply (proj2 (proj1 (Exec_verbatim Fake.driver) (WrapQueryer (Q_DB (at_addr 0))) 0
                  "DELETE FROM t" [] (Fake.world Fake.failing_exec)
                  (Some {| LastInsertId := 0; RowsAffected := 0 |})
                  (Some "constraint violation") Fake.failing_exec eq_refl)).
  reflexivity.
Defined.

Example Exec_succeeds :
  wrappedStmt_Exec Fake.driver (WrapStmt (at_addr 3)) 0 [VInt 1] (Fake.world Fake.healthy) =
    (Some {| LastInsertId := 7; RowsAffected := 1 |}, None,
     mkWorld [call_Stmt_ExecContext (at_addr 3) 0 [VInt 1]] [] Fake.healthy).
Proof. reflexivity. Qed.

(** C8.  [Scan] on a row that holds a captured error returns that error,
    for every list of destinations, the empty one included; it makes no
    native call and leaves the memory and the library as they were. *)
Theorem errRow_Scan_captured {S} (sql : Driver S) (e : errRow) (dest : list nat)
    (w : World S) :
  errRow_Scan e dest w = (err e, w) /\
  Row_Scan sql (Row_errRow e) dest w = (err e, w) /\
  trace (snd (Row_Scan sql (Row_errRow e) dest w)) = trace w /\
  mem (snd (Row_Scan sql (Row_errRow e) dest w)) = mem w.
Proof.
  repeat split.
Qed.

(** C6.  [Ping] on a wrapped handle leases a connection.  If the lease
    fails, its error is returned and nothing else is called.  Otherwise the
    leased connection is pinged and then closed, whatever the ping answered,
    and the ping's answer is returned. *)
Theorem Ping_leases_pings_releases {S} (sql : Driver S) (db : wrappedDB) (ctx : Context)
    (w : World S) (c : sql_Conn) (e : error) (s1 : S) :
  sql_DB_Conn sql (wdb_DB db) ctx (drv w) = (c, e, s1) ->
  (forall msg, e = Some msg ->
     wrappedDB_Ping sql db ctx w =
       (Some msg, mkWorld (trace w ++ [call_DB_Conn (wdb_DB db) ctx]) (mem w) s1)) /\
  (e = None ->
     forall pe s2 ce s3,
       sql_PingContext sql (C_Conn c) ctx s1 = (pe, s2) ->
       sql_Close sql (C_Conn c) s2 = (ce, s3) ->
       wrappedDB_Ping sql db ctx w =
         (pe, mkWorld (trace w ++ [call_DB_Conn (wdb_DB db) ctx;
                                   call_PingContext (C_Conn c) ctx;
                                   call_Close (C_Conn c)]) (mem w) s3)).
Proof.
  intros H. rewrite wrappedDB_Ping_unfold. unfold wrappedDB_Conn.
  rewrite !bind_run, native_call_run, H. cbn.
  split.
  - intros msg ->. reflexivity.
  - intros -> pe s2 ce s3 Hp Hc. cbn.
    rewrite defer_Close_run. cbn.
    unfold wrappedConn_Ping, wrappedConn_Close.
    rewrite !native_call_run. cbn. rewrite Hp. cbn. rewrite Hc. cbn.
    unfold after. cbn. now rewrite <- !app_assoc.
Qed.

Lemma Ping_leases_pings_releases_witness :
  wrappedDB_Ping Fake.driver (WrapDB (at_addr 0)) 0
      (Fake.world (Fake.mk 1 [] None None None None (Some "bad connection")
                           (None, None) None true)) =
    (Some "bad connection",
     mkWorld [call_DB_Conn (at_addr 0) 0; call_PingContext (C_Conn (at_addr 1)) 0;
              call_Close (C_Conn (at_addr 1))] []
             (Fake.mk 2 [1] None None None None (Some "bad connection")
                      (None, None) None true)).
Proof.
  apply (proj2 (Ping_leases_pings_releases Fake.driver (WrapDB (at_addr 0)) 0
                  (Fake.world (Fake.mk 1 [] None None None None (Some "bad connection")
                                       (None, None) None true))
                  (at_addr 1) None
                  (Fake.mk 2 [] None None None None (Some "bad connection")
                           (None, None) None true) eq_refl) eq_refl
               (Some "bad connection") _ None _ eq_refl eq_refl).
Defined.

Example Ping_lease_fails :
  wrappedDB_Ping Fake.driver (WrapDB (at_addr 0)) 0
      (Fake.world (Fake.mk 1 [] (Some "pool exhausted") None None None None
                           (None, None) None true)) =
    (Some "pool exhausted",
     mkWorld [call_DB_Conn (at_addr 0) 0] []
             (Fake.mk 1 [] (Some "pool exhausted") None None None None
                      (None, None) None true)).
Proof. reflexivity. Qed.

Example errRow_Scan_on_Fake :
  Row_Scan Fake.driver (Row_errRow {| err := Some "sql: database is closed" |}) [10; 11]
      (Fake.world Fake.healthy) =
    (Some "sql: database is closed", Fake.world Fake.healthy).
Proof. reflexivity. Qed.

(** C2.  [QueryRow], on a queryer, a database handle, a connection, a
    transaction or a statement, has a row as its only result: it makes one
    native single-row query and returns the native row it is given.  What
    [Scan] on that row returns is what the native row's own [Scan] returns,
    so a failure of the query, the absence of a row included, reaches the
    caller there and nowhere earlier. *)
Theorem QueryRow_defers_failure_to_Scan {S} (sql : Driver S) ctx query args (w : World S) :
  (forall q : wrappedQueryer,
     returns_native_row (wrappedQueryer_QueryRow sql q ctx query args)
       (call_QueryRowContext (wq_SQLQueryer q) ctx query args)
       (sql_QueryRowContext sql (wq_SQLQueryer q) ctx query args) w) /\
  (forall db : wrappedDB,
     returns_native_row (wrappedDB_QueryRow sql db ctx query args)
       (call_QueryRowContext (wq_SQLQueryer (wdb_queryer db)) ctx query args)
       (sql_QueryRowContext sql (wq_SQLQueryer (wdb_queryer db)) ctx query args) w) /\
  (forall c : Conn,
     returns_native_row (Conn_QueryRow sql c ctx query args)
       (call_QueryRowContext (wq_SQLQueryer (Conn_queryer c)) ctx query args)
       (sql_QueryRowContext sql (wq_SQLQueryer (Conn_queryer c)) ctx query args) w) /\
  (forall t : Tx,
     returns_native_row (Tx_QueryRow sql t ctx query args)
       (call_QueryRowContext (wq_SQLQueryer (wtx_Queryer (Tx_wrapped t))) ctx query args)
       (sql_QueryRowContext sql (wq_SQLQueryer (wtx_Queryer (Tx_wrapped t))) ctx query args)
       w) /\
  (forall st : wrappedStmt,
     returns_native_row (wrappedStmt_QueryRow sql st ctx args)
       (call_Stmt_QueryRowContext (ws_Stmt st) ctx args)
       (sql_Stmt_QueryRowContext sql (ws_Stmt st) ctx args) w) /\
  (forall (r : sql_Row) (dest : list nat) (w' : World S),
     fst (Row_Scan sql (Row_sql r) dest w') =
       fst (fst (sql_Row_Scan sql r dest (mem w') (drv w'))) /\
     trace (snd (Row_Scan sql (Row_sql r) dest w')) = trace w' ++ [call_Row_Scan r dest]).
Proof.
  repeat apply conj.
  - intros q. apply wrappedQueryer_QueryRow_native.
  - intros db. apply wrappedQueryer_QueryRow_native.
  - intros c. rewrite Conn_QueryRow_queryer. apply wrappedQueryer_QueryRow_native.
  - intros t. rewrite Tx_QueryRow_wrapped. apply wrappedQueryer_QueryRow_native.
  - intros st. apply wrappedStmt_QueryRow_native.
  - intros r dest w'. now rewrite Row_Scan_native.
Qed.

(** A single-row query that finds no row: [QueryRow] returns its row all the
    same, and the "no rows" error comes out of [Scan]. *)
Example QueryRow_no_rows :
  wrappedQueryer_QueryRow Fake.driver (WrapQueryer (Q_DB (at_addr 0))) 0 "SELECT 1" []
      (Fake.world Fake.failing_exec) =
    (Row_sql (at_addr 1),
     mkWorld [call_QueryRowContext (Q_DB (at_addr 0)) 0 "SELECT 1" []] []
             (snd (Fake.alloc (k := kRow) Fake.failing_exec))) /\
  fst (Row_Scan Fake.driver (Row_sql (at_addr 1)) [10]
         (mkWorld [] [] (snd (Fake.alloc (k := kRow) Fake.failing_exec)))) =
    Some Fake.ErrNoRows.
Proof. split; reflexivity. Qed.

(** C10.  A successful [Query] returns the native rows themselves and
    [QueryRow] the native row itself, on every kind of handle; no operation
    returns a row of the captured-error kind. *)
Theorem Rows_and_Row_are_native {S} (sql : Driver S) ctx query args (w : World S) :
  (forall q : wrappedQueryer,
     returns_native_rows (wrappedQueryer_Query sql q ctx query args)
       (call_QueryContext (wq_SQLQueryer q) ctx query args)
       (sql_QueryContext sql (wq_SQLQueryer q) ctx query args) w) /\
  (forall db : wrappedDB,
     returns_native_rows (wrappedDB_Query sql db ctx query args)
       (call_QueryContext (wq_SQLQueryer (wdb_queryer db)) ctx query args)
       (sql_QueryContext sql (wq_SQLQueryer (wdb_queryer db)) ctx query args) w) /\
  (forall c : Conn,
     returns_native_rows (Conn_Query sql c ctx query args)
       (call_QueryContext (wq_SQLQueryer (Conn_queryer c)) ctx query args)
       (sql_QueryContext sql (wq_SQLQueryer (Conn_queryer c)) ctx query args) w) /\
  (forall t : Tx,
     returns_native_rows (Tx_Query sql t ctx query args)
       (call_QueryContext (wq_SQLQueryer (wtx_Queryer (Tx_wrapped t))) ctx query args)
       (sql_QueryContext sql (wq_SQLQueryer (wtx_Queryer (Tx_wrapped t))) ctx query args)
       w) /\
  (forall st : wrappedStmt,
     returns_native_rows (wrappedStmt_Query sql st ctx args)
       (call_Stmt_QueryContext (ws_Stmt st) ctx args)
       (sql_Stmt_QueryContext sql (ws_Stmt st) ctx args) w) /\
  (forall q : wrappedQueryer,
     wrappedQueryer_QueryRow sql q ctx query args w =
       (Row_sql (fst (sql_QueryRowContext sql (wq_SQLQueryer q) ctx query args (drv w))),
        snd (wrappedQueryer_QueryRow sql q ctx query args w))) /\
  (forall st : wrappedStmt,
     wrappedStmt_QueryRow sql st ctx args w =
       (Row_sql (fst (sql_Stmt_QueryRowContext sql (ws_Stmt st) ctx args (drv w))),
        snd (wrappedStmt_QueryRow sql st ctx args w))) /\
  (forall q : wrappedQueryer,
     is_errRow (fst (wrappedQueryer_QueryRow sql q ctx query args w)) = false) /\
  (forall db : wrappedDB,
     is_errRow (fst (wrappedDB_QueryRow sql db ctx query args w)) = false) /\
  (forall c : Conn, is_errRow (fst (Conn_QueryRow sql c ctx query args w)) = false) /\
  (forall t : Tx, is_errRow (fst (Tx_QueryRow sql t ctx query args w)) = false) /\
  (forall st : wrappedStmt,
     is_errRow (fst (wrappedStmt_QueryRow sql st ctx args w)) = false).
Proof.
  repeat apply conj.
  - intros q. apply wrappedQueryer_Query_native.
  - intros db. apply wrappedQueryer_Query_native.
  - intros c. rewrite Conn_Query_queryer. apply wrappedQueryer_Query_native.
  - intros t. rewrite Tx_Query_wrapped. apply wrappedQueryer_Query_native.
  - intros st. apply wrappedStmt_Query_native.
  - intros q. now rewrite (wrappedQueryer_QueryRow_native sql q ctx query args w).
  - intros st. now rewrite (wrappedStmt_QueryRow_native sql st ctx args w).
  - intros q. eapply returns_native_row_not_errRow, wrappedQueryer_QueryRow_native.
  - intros db. eapply returns_native_row_not_errRow.
    apply (wrappedQueryer_QueryRow_native sql (wdb_queryer db)).
  - intros c. rewrite Conn_QueryRow_queryer.
    eapply returns_native_row_not_errRow, wrappedQueryer_QueryRow_native.
  - intros t. rewrite Tx_QueryRow_wrapped.
    eapply returns_native_row_not_errRow.
    apply (wrappedQueryer_QueryRow_native sql (wtx_Queryer (Tx_wrapped t))).
  - intros st. eapply returns_native_row_not_errRow, wrappedStmt_QueryRow_native.
Qed.

Example Query_on_Fake :
  wrappedQueryer_Query Fake.driver (WrapQueryer (Q_DB (at_addr 0))) 0 "SELECT 1" []
      (Fake.world Fake.healthy) =
    (Some (at_addr 1), None,
     mkWorld [call_QueryContext (Q_DB (at_addr 0)) 0 "SELECT 1" []] []
             (snd (Fake.alloc (k := kRows) Fake.healthy))) /\
  wrappedStmt_Query Fake.driver (WrapStmt (at_addr 4)) 0 [] (Fake.world Fake.failing_exec) =
    (None, Some "syntax error",
     mkWorld [call_Stmt_QueryContext (at_addr 4) 0 []] [] Fake.failing_exec).
Proof. split; reflexivity. Qed.

(** C7.  [Stmt] on a transaction returns a statement and nothing else: it
    passes the native statement obtained by [Unwrap] to the native rebind of
    the transaction, once, and wraps what comes back.  A later [Exec] on the
    returned statement runs on that native statement and reports the error
    the driver gives then. *)
Theorem Stmt_rebinds_without_error {S} (sql : Driver S) (t : Tx) (ctx : Context)
    (stmt : Stmt) (w : World S) :
  let ntx := wtx_tx (Tx_wrapped t) in
  let r := sql_Tx_StmtContext sql ntx ctx (wrappedStmt_Unwrap stmt) (drv w) in
  Tx_Stmt sql t ctx stmt w =
    (WrapStmt (fst r),
     after w (call_Tx_StmtContext ntx ctx (wrappedStmt_Unwrap stmt)) (snd r)) /\
  forall ctx' args (w' : World S),
    snd (fst (wrappedStmt_Exec sql (fst (Tx_Stmt sql t ctx stmt w)) ctx' args w')) =
      snd (fst (sql_Stmt_ExecContext sql (fst r) ctx' args (drv w'))) /\
    trace (snd (wrappedStmt_Exec sql (fst (Tx_Stmt sql t ctx stmt w)) ctx' args w')) =
      trace w' ++ [call_Stmt_ExecContext (fst r) ctx' args].
Proof.
  intros ntx r.
  assert (E : Tx_Stmt sql t ctx stmt w =
              (WrapStmt (fst r),
               after w (call_Tx_StmtContext ntx ctx (wrappedStmt_Unwrap stmt)) (snd r))).
  { rewrite Tx_Stmt_wrapped. unfold wrappedTx_Stmt.
    rewrite bind_run, native_call_run. reflexivity. }
  split; [exact E|].
  intros ctx' args w'. rewrite E. cbn [fst].
  rewrite wrappedStmt_Exec_run. cbn.
  destruct (sql_Stmt_ExecContext _ _ _ _ _) as [[res e] s]. now split.
Qed.

Example Stmt_on_Fake :
  Tx_Stmt Fake.driver
      (Tx_connTx (mk_connTx (WrapConn (C_Conn (at_addr 1)))
                            (Tx_wrappedTx {| wtx_tx := at_addr 2;
                                             wtx_Queryer := WrapQueryer (Q_Tx (at_addr 2)) |})))
      0 (WrapStmt (at_addr 3)) (mkWorld [] [] (snd (Fake.alloc (k := kDB) Fake.failing_exec))) =
    (WrapStmt (at_addr 2),
     mkWorld [call_Tx_StmtContext (at_addr 2) 0 (at_addr 3)] []
             (snd (Fake.alloc (k := kDB) (snd (Fake.alloc (k := kDB) Fake.failing_exec))))) /\
  fst (wrappedStmt_Exec Fake.driver (WrapStmt (at_addr 2)) 0 [] (Fake.world Fake.failing_exec)) =
    (None, Some "constraint violation").
Proof. split; reflexivity. Qed.

(** C1, as the code has it.  The transaction that a connection's [BeginTx]
    returns is a plain [wrappedTx] around the native transaction.  Its
    [Commit] and [Rollback] make one native call each, the commit or the
    rollback, and return what it answered; no [Close] is called and the
    connection stays with the caller. *)
Theorem BeginTx_on_Conn_does_not_couple {S} (sql : Driver S) (c : Conn) (ctx : Context)
    (opts : option TxOptions) (w w1 : World S) (tx : Tx) :
  Conn_BeginTx sql c ctx opts w = (Some tx, None, w1) ->
  exists ntx : sql_Tx,
    tx = Tx_wrappedTx {| wtx_tx := ntx; wtx_Queryer := WrapQueryer (Q_Tx ntx) |} /\
    forall w' : World S,
      Tx_Commit sql tx w' =
        (fst (sql_Tx_Commit sql ntx (drv w')),
         after w' (call_Tx_Commit ntx) (snd (sql_Tx_Commit sql ntx (drv w')))) /\
      Tx_Rollback sql tx w' =
        (fst (sql_Tx_Rollback sql ntx (drv w')),
         after w' (call_Tx_Rollback ntx) (snd (sql_Tx_Rollback sql ntx (drv w')))).
Proof.
  rewrite Conn_BeginTx_run.
  destruct (sql_BeginTx _ _ _ _ _) as [[ntx [e|]] s]; intros H; [discriminate|].
  injection H as <- _. exists ntx. split; [reflexivity|].
  intros w'. cbn. unfold wrappedTx_Commit, wrappedTx_Rollback.
  now rewrite !native_call_run.
Qed.

Lemma BeginTx_on_Conn_does_not_couple_witness :
  exists ntx : sql_Tx,
    Tx_wrappedTx {| wtx_tx := at_addr 1; wtx_Queryer := WrapQueryer (Q_Tx (at_addr 1)) |} =
      Tx_wrappedTx {| wtx_tx := ntx; wtx_Queryer := WrapQueryer (Q_Tx ntx) |} /\
    forall w' : World Fake.state,
      Tx_Commit Fake.driver
          (Tx_wrappedTx {| wtx_tx := at_addr 1;
                           wtx_Queryer := WrapQueryer (Q_Tx (at_addr 1)) |}) w' =
        (fst (sql_Tx_Commit Fake.driver ntx (drv w')),
         after w' (call_Tx_Commit ntx) (snd (sql_Tx_Commit Fake.driver ntx (drv w')))) /\
      Tx_Rollback Fake.driver
          (Tx_wrappedTx {| wtx_tx := at_addr 1;
                           wtx_Queryer := WrapQueryer (Q_Tx (at_addr 1)) |}) w' =
        (fst (sql_Tx_Rollback Fake.driver ntx (drv w')),
         after w' (call_Tx_Rollback ntx) (snd (sql_Tx_Rollback Fake.driver ntx (drv w')))).
Proof.
  apply (BeginTx_on_Conn_does_not_couple Fake.driver (WrapConn (C_Conn (at_addr 5))) 0 None
           (Fake.world Fake.healthy)
           (mkWorld [call_BeginTx (C_Conn (at_addr 5)) 0 None] []
                    (snd (Fake.alloc (k := kTx) Fake.healthy)))).
  reflexivity.
Defined.

(** C1, as stated, fails.  A connection is leased, a transaction is begun
    on it and committed, once with a commit that succeeds and once with one
    that fails; once it is rolled back.  Each run ends with the error of the
    commit or rollback and with a ping of the connection that answers the
    nil error, not that the connection is closed; no [Close] is among the
    native calls made, and the connection is not released. *)
Lemma Commit_on_leased_Conn_leaves_it_open :
  (leased_tx_run true Fake.healthy =
     Some (leased_conn, None, None, leased_tx_world (call_Tx_Commit (at_addr 2)) Fake.healthy) /\
   leased_tx_run true Fake.failing_commit =
     Some (leased_conn, Some "commit failed", None,
           leased_tx_world (call_Tx_Commit (at_addr 2)) Fake.failing_commit) /\
   leased_tx_run false Fake.failing_commit =
     Some (leased_conn, Some "rollback failed", None,
           leased_tx_world (call_Tx_Rollback (at_addr 2)) Fake.failing_commit)) /\
  existsb (fun c => match c with call_Close _ => true | _ => false end)
    (trace (leased_tx_world (call_Tx_Commit (at_addr 2)) Fake.healthy) ++
     trace (leased_tx_world (call_Tx_Commit (at_addr 2)) Fake.failing_commit) ++
     trace (leased_tx_world (call_Tx_Rollback (at_addr 2)) Fake.failing_commit)) = false /\
  Fake.is_released (Conn_native leased_conn)
    (drv (leased_tx_world (call_Tx_Commit (at_addr 2)) Fake.healthy)) = false /\
  Fake.is_released (Conn_native leased_conn)
    (drv (leased_tx_world (call_Tx_Commit (at_addr 2)) Fake.failing_commit)) = false.
Proof.
  repeat split.
Qed.

(** The fake does report closed connections: after an explicit [Close] the
    same ping fails. *)
Example Ping_after_Close_on_Fake :
  fst ((_ <- Conn_Close Fake.driver (WrapConn (C_Conn (at_addr 1))) ;;
        Conn_Ping Fake.driver (WrapConn (C_Conn (at_addr 1))) 0) (Fake.world Fake.healthy)) =
    Some Fake.ErrConnDone.
Proof. reflexivity. Qed.

(** C5, as the code has it.  [Commit] and [Rollback] of a [connTx] first
    run those of the transaction it embeds, then close the connection it
    owns, whatever the outcome; they return the error of the commit or
    rollback, always.  What [Close] answers is dropped: it neither replaces
    nor joins that error. *)
Theorem connTx_closes_and_drops_Close_error {S} (sql : Driver S) (c : Conn) (t : Tx)
    (w : World S) :
  (let r := Tx_Commit sql t w in
   let k := sql_Close sql (Conn_native c) (drv (snd r)) in
   connTx_Commit sql (mk_connTx c t) w =
     (fst r, after (snd r) (call_Close (Conn_native c)) (snd k))) /\
  (let r := Tx_Rollback sql t w in
   let k := sql_Close sql (Conn_native c) (drv (snd r)) in
   connTx_Rollback sql (mk_connTx c t) w =
     (fst r, after (snd r) (call_Close (Conn_native c)) (snd k))).
Proof.
  split; cbn; rewrite defer_Close_run, Conn_Close_run; reflexivity.
Qed.

(** C5, as stated, fails.  The commit succeeds and the release fails with
    "close failed": [Commit] returns the nil error, so the release failure
    never reaches the caller. *)
Lemma connTx_Commit_hides_Close_failure :
  fst (Conn_Close Fake.driver leased_conn
         (snd (Tx_Commit Fake.driver plain_tx (Fake.world Fake.failing_close)))) =
    Some "close failed" /\
  connTx_Commit Fake.driver owning_tx (Fake.world Fake.failing_close) =
    (None,
     mkWorld [call_Tx_Commit (at_addr 2); call_Close (C_Conn (at_addr 1))] []
             (Fake.release 1 Fake.failing_close)) /\
  fst (connTx_Commit Fake.driver owning_tx (Fake.world Fake.failing_close)) <>
    Some "close failed".
Proof.
  repeat split. discriminate.
Qed.

(** A [connTx] does release its connection: after its [Commit], failed or
    not, a ping of the connection reports it closed. *)
Example connTx_Commit_on_Fake :
  fst (connTx_Commit Fake.driver owning_tx (Fake.world Fake.healthy)) = None /\
  fst (Conn_Ping Fake.driver leased_conn 0
         (snd (connTx_Commit Fake.driver owning_tx (Fake.world Fake.healthy)))) =
    Some Fake.ErrConnDone /\
  fst (connTx_Commit Fake.driver owning_tx (Fake.world Fake.failing_commit)) =
    Some "commit failed" /\
  fst (Conn_Ping Fake.driver leased_conn 0
         (snd (connTx_Commit Fake.driver owning_tx (Fake.world Fake.failing_commit)))) =
    Some Fake.ErrConnDone.
Proof.
  repeat split.
Qed.

(** ** Further properties of the package *)

Section MoreFacts.

Context {S : Type} (sql : Driver S).

Lemma wrappedQueryer_Prepare_run (q : wrappedQueryer) ctx query (w : World S) :
  wrappedQueryer_Prepare sql q ctx query w =
    let '(st, e, s) := sql_PrepareContext sql (wq_SQLQueryer q) ctx query (drv w) in
    (match e with Some _ => None | None => Some (WrapStmt st) end, e,
     after w (call_PrepareContext (wq_SQLQueryer q) ctx query) s).
Proof.
  unfold wrappedQueryer_Prepare. rewrite bind_run, native_call_run.
  destruct (sql_PrepareContext _ _ _ _ _) as [[st [e|]] s]; reflexivity.
Qed.

Lemma Tx_Prepare_wrapped (t : Tx) ctx query :
  Tx_Prepare sql t ctx query = wrappedTx_Prepare sql (Tx_wrapped t) ctx query.
Proof.
  revert t. fix IH 1. intros [t | [c t]]; cbn; [reflexivity | apply IH].
Qed.

Lemma Conn_Prepare_queryer (c : Conn) ctx query :
  Conn_Prepare sql c ctx query = wrappedQueryer_Prepare sql (Conn_queryer c) ctx query.
Proof.
  now destruct c.
Qed.

Lemma makes_Exec (q : wrappedQueryer) ctx query args :
  makes (wrappedQueryer_Exec sql q ctx query args)
        [call_ExecContext (wq_SQLQueryer q) ctx query args].
Proof.
  intros w. rewrite wrappedQueryer_Exec_run.
  now destruct (sql_ExecContext _ _ _ _ _ _) as [[r e] s].
Qed.

Lemma makes_Query (q : wrappedQueryer) ctx query args :
  makes (wrappedQueryer_Query sql q ctx query args)
        [call_QueryContext (wq_SQLQueryer q) ctx query args].
Proof.
  intros w. rewrite wrappedQueryer_Query_run.
  now destruct (sql_QueryContext _ _ _ _ _ _) as [[r e] s].
Qed.

Lemma makes_QueryRow (q : wrappedQueryer) ctx query args :
  makes (wrappedQueryer_QueryRow sql q ctx query args)
        [call_QueryRowContext (wq_SQLQueryer q) ctx query args].
Proof.
  intros w. rewrite wrappedQueryer_QueryRow_run.
  now destruct (sql_QueryRowContext _ _ _ _ _ _) as [r s].
Qed.

Lemma makes_Prepare (q : wrappedQueryer) ctx query :
  makes (wrappedQueryer_Prepare sql q ctx query)
        [call_PrepareContext (wq_SQLQueryer q) ctx query].
Proof.
  intros w. rewrite wrappedQueryer_Prepare_run.
  now destruct (sql_PrepareContext _ _ _ _ _) as [[r e] s].
Qed.

Lemma makes_native_call {A} (c : Call) (op : S -> A * S) :
  makes (native_call c op) [c].
Proof.
  intros w. now rewrite native_call_run.
Qed.

Lemma makes_Tx_Stmt (t : Tx) ctx stmt :
  makes (Tx_Stmt sql t ctx stmt)
        [call_Tx_StmtContext (wtx_tx (Tx_wrapped t)) ctx (wrappedStmt_Unwrap stmt)].
Proof.
  intros w. rewrite Tx_Stmt_wrapped. unfold wrappedTx_Stmt.
  now rewrite bind_run, native_call_run.
Qed.

Lemma close_all_snoc (cs : list SQLConn) (c : SQLConn) (s : S) :
  close_all sql (cs ++ [c]) s = snd (sql_Close sql c (close_all sql cs s)).
Proof.
  unfold close_all. now rewrite fold_left_app.
Qed.

(** [Commit] on any [Tx]: the native commit, then the closes. *)
Lemma Tx_Commit_run (t : Tx) (w : World S) :
  Tx_Commit sql t w =
    (fst (sql_Tx_Commit sql (wtx_tx (Tx_wrapped t)) (drv w)),
     mkWorld (trace w ++ call_Tx_Commit (wtx_tx (Tx_wrapped t))
                         :: map call_Close (map Conn_native (Tx_owned t)))
             (mem w)
             (close_all sql (map Conn_native (Tx_owned t))
                (snd (sql_Tx_Commit sql (wtx_tx (Tx_wrapped t)) (drv w))))).
Proof.
  revert t w. fix IH 1. intros [t | [c t]] w.
  - cbn. unfold wrappedTx_Commit. now rewrite native_call_run.
  - change (Tx_Commit sql (Tx_connTx (mk_connTx c t)) w)
      with (defer_Close sql c (Tx_Commit sql t) w).
    cbn [Tx_wrapped Tx_owned].
    rewrite defer_Close_run, Conn_Close_run, (IH t w). cbn [fst snd drv trace mem after].
    rewrite !map_app. cbn [map]. rewrite close_all_snoc.
    unfold after. cbn [trace mem]. now rewrite <- app_assoc, <- app_comm_cons.
Qed.

Lemma Tx_Rollback_run (t : Tx) (w : World S) :
  Tx_Rollback sql t w =
    (fst (sql_Tx_Rollback sql (wtx_tx (Tx_wrapped t)) (drv w)),
     mkWorld (trace w ++ call_Tx_Rollback (wtx_tx (Tx_wrapped t))
                         :: map call_Close (map Conn_native (Tx_owned t)))
             (mem w)
             (close_all sql (map Conn_native (Tx_owned t))
                (snd (sql_Tx_Rollback sql (wtx_tx (Tx_wrapped t)) (drv w))))).
Proof.
  revert t w. fix IH 1. intros [t | [c t]] w.
  - cbn. unfold wrappedTx_Rollback. now rewrite native_call_run.
  - change (Tx_Rollback sql (Tx_connTx (mk_connTx c t)) w)
      with (defer_Close sql c (Tx_Rollback sql t) w).
    cbn [Tx_wrapped Tx_owned].
    rewrite defer_Close_run, Conn_Close_run, (IH t w). cbn [fst snd drv trace mem after].
    rewrite !map_app. cbn [map]. rewrite close_all_snoc.
    unfold after. cbn [trace mem]. now rewrite <- app_assoc, <- app_comm_cons.
Qed.

Lemma makes_Conn_BeginTx (c : Conn) ctx opts :
  makes (Conn_BeginTx sql c ctx opts) [call_BeginTx (Conn_native c) ctx opts].
Proof.
  intros w. rewrite Conn_BeginTx_run.
  now destruct (sql_BeginTx _ _ _ _ _) as [[tx e] s].
Qed.

Lemma makes_Conn_Close (c : Conn) :
  makes (Conn_Close sql c) [call_Close (Conn_native c)].
Proof.
  intros w. now rewrite Conn_Close_run.
Qed.

(** A [Conn] whose queryer is the one [WrapQueryer] makes of its native
    object has all its methods bound to that object. *)
Lemma Conn_bound_when_coherent (c : Conn) :
  Conn_queryer c = WrapQueryer (SQLConn_SQLQueryer (Conn_native c)) ->
  Conn_bound_to sql c (Conn_native c).
Proof.
  intros H ctx query args opts.
  rewrite Conn_Exec_queryer, Conn_Query_queryer, Conn_QueryRow_queryer,
    Conn_Prepare_queryer, H.
  repeat apply conj.
  - apply makes_Exec.
  - apply makes_Query.
  - apply makes_QueryRow.
  - apply makes_Prepare.
  - apply makes_Conn_BeginTx.
  - apply makes_Conn_Close.
Qed.

(** A [Tx] as [BeginTx] builds it has all its methods bound to its native
    transaction. *)
Lemma Tx_bound_when_plain (ntx : sql_Tx) :
  Tx_bound_to sql
    (Tx_wrappedTx {| wtx_tx := ntx; wtx_Queryer := WrapQueryer (Q_Tx ntx) |}) ntx.
Proof.
  intros ctx query args stmt. repeat apply conj.
  - apply makes_Exec.
  - apply makes_Query.
  - apply makes_QueryRow.
  - apply makes_Prepare.
  - apply (makes_Tx_Stmt
             (Tx_wrappedTx {| wtx_tx := ntx; wtx_Queryer := WrapQueryer (Q_Tx ntx) |})).
  - apply makes_native_call.
  - apply makes_native_call.
Qed.





End MoreFacts.

(** X1.  [Prepare] makes one native prepare.  If it succeeds, [Prepare]
    returns a statement that unwraps to the native statement the driver gave;
    if it fails, the nil statement and the driver's error, whatever pointer
    came with it.  [Prepare] on a database handle, a connection or a
    transaction, through any number of [connTx] layers, is [Prepare] on its
    queryer. *)
Theorem Prepare_verbatim {S} (sql : Driver S) :
  (forall (q : wrappedQueryer) ctx query (w : World S) st e s,
     sql_PrepareContext sql (wq_SQLQueryer q) ctx query (drv w) = (st, e, s) ->
     let w' := after w (call_PrepareContext (wq_SQLQueryer q) ctx query) s in
     (e = None ->
        exists stmt : Stmt,
          wrappedQueryer_Prepare sql q ctx query w = (Some stmt, None, w') /\
          wrappedStmt_Unwrap stmt = st) /\
     (forall msg, e = Some msg ->
        wrappedQueryer_Prepare sql q ctx query w = (None, Some msg, w'))) /\
  (forall ctx query,
     (forall db : wrappedDB,
        wrappedDB_Prepare sql db ctx query =
          wrappedQueryer_Prepare sql (wdb_queryer db) ctx query) /\
     (forall c : Conn,
        Conn_Prepare sql c ctx query =
          wrappedQueryer_Prepare sql (Conn_queryer c) ctx query) /\
     (forall t : Tx,
        Tx_Prepare sql t ctx query =
          wrappedQueryer_Prepare sql (wtx_Queryer (Tx_wrapped t)) ctx query)).
Proof.
  split.
  - intros q ctx query w st e s H w'.
    rewrite wrappedQueryer_Prepare_run, H.
    split.
    + intros ->. exists (WrapStmt st). now split.
    + intros msg ->. reflexivity.
  - intros ctx query. repeat apply conj.
    + reflexivity.
    + intros c. apply Conn_Prepare_queryer.
    + intros t. apply Tx_Prepare_wrapped.
Qed.

Lemma Prepare_verbatim_witness :
  wrappedQueryer_Prepare Fake.driver (WrapQueryer (Q_DB (at_addr 0))) 0 "SELEC 1"
      (Fake.world Fake.failing_exec) =
    (None, Some "syntax error",
     mkWorld [call_PrepareContext (Q_DB (at_addr 0)) 0 "SELEC 1"] [] Fake.failing_exec).
Proof.
  apply (proj2 (proj1 (Prepare_verbatim Fake.driver) (WrapQueryer (Q_DB (at_addr 0))) 0
                  "SELEC 1" (Fake.world Fake.failing_exec) null (Some "syntax error")
                  Fake.failing_exec eq_refl)).
  reflexivity.
Defined.

(** X2.  Leasing a connection from a wrapped handle makes one native lease.
    If it fails, the nil connection and the driver's error are returned.  If
    it succeeds, the connection returned is bound to the native connection
    just leased: its queries, [BeginTx], [Close] and [Ping] each make one
    native call on that connection, none on the pool. *)
Theorem leased_Conn_is_bound_to_its_connection {S} (sql : Driver S) (db : wrappedDB)
    (ctx : Context) (w : World S) (c : sql_Conn) (e : error) (s1 : S) :
  sql_DB_Conn sql (wdb_DB db) ctx (drv w) = (c, e, s1) ->
  let w' := after w (call_DB_Conn (wdb_DB db) ctx) s1 in
  (forall msg, e = Some msg -> wrappedDB_Conn sql db ctx w = (None, Some msg, w')) /\
  (e = None ->
     exists conn : Conn,
       wrappedDB_Conn sql db ctx w = (Some conn, None, w') /\
       Conn_bound_to sql conn (C_Conn c) /\
       forall ctx', makes (Conn_Ping sql conn ctx') [call_PingContext (C_Conn c) ctx']).
Proof.
  intros H w'. unfold wrappedDB_Conn. rewrite bind_run, native_call_run, H. cbn.
  split.
  - intros msg ->. reflexivity.
  - intros ->. exists (WrapConn (C_Conn c)). repeat apply conj.
    + reflexivity.
    + apply (Conn_bound_when_coherent sql (WrapConn (C_Conn c))). reflexivity.
    + intros ctx'. apply makes_native_call.
Qed.

Lemma leased_Conn_is_bound_to_its_connection_witness :
  exists conn : Conn,
    wrappedDB_Conn Fake.driver (WrapDB (at_addr 0)) 0 (Fake.world Fake.healthy) =
      (Some conn, None,
       after (Fake.world Fake.healthy) (call_DB_Conn (at_addr 0) 0)
             (snd (Fake.alloc (k := kConn) Fake.healthy))) /\
    Conn_bound_to Fake.driver conn (C_Conn (at_addr 1)) /\
    forall ctx',
      makes (Conn_Ping Fake.driver conn ctx') [call_PingContext (C_Conn (at_addr 1)) ctx'].
Proof.
  apply (proj2 (leased_Conn_is_bound_to_its_connection Fake.driver (WrapDB (at_addr 0)) 0
                  (Fake.world Fake.healthy) (at_addr 1) None
                  (snd (Fake.alloc (k := kConn) Fake.healthy)) eq_refl)).
  reflexivity.
Defined.

(** X3.  [BeginTx], on a connection or on a database handle, makes one
    native begin on the native object of the receiver, with the context and
    the options it was given.  If the begin fails, the nil transaction and
    the driver's error are returned.  If it succeeds, every method of the
    transaction returned makes one native call on the native transaction
    just begun; none goes to the connection. *)
Theorem BeginTx_binds_to_native_transaction {S} (sql : Driver S) (c : Conn) (ctx : Context)
    (opts : option TxOptions) (w : World S) (ntx : sql_Tx) (e : error) (s1 : S) :
  sql_BeginTx sql (Conn_native c) ctx opts (drv w) = (ntx, e, s1) ->
  let w' := after w (call_BeginTx (Conn_native c) ctx opts) s1 in
  (forall msg, e = Some msg -> Conn_BeginTx sql c ctx opts w = (None, Some msg, w')) /\
  (e = None ->
     exists tx : Tx,
       Conn_BeginTx sql c ctx opts w = (Some tx, None, w') /\
       Tx_owned tx = [] /\
       Tx_bound_to sql tx ntx).
Proof.
  intros H w'. rewrite Conn_BeginTx_run, H.
  split.
  - intros msg ->. reflexivity.
  - intros ->. eexists. repeat apply conj.
    + reflexivity.
    + reflexivity.
    + apply Tx_bound_when_plain.
Qed.

Lemma BeginTx_binds_to_native_transaction_witness :
  Conn_BeginTx Fake.driver leased_conn 0 (Some {| Isolation := 6; ReadOnly := true |})
      (Fake.world (Fake.release 1 Fake.healthy)) =
    (None, Some Fake.ErrConnDone,
     after (Fake.world (Fake.release 1 Fake.healthy))
           (call_BeginTx (C_Conn (at_addr 1)) 0 (Some {| Isolation := 6; ReadOnly := true |}))
           (Fake.release 1 Fake.healthy)).
Proof.
  apply (proj1 (BeginTx_binds_to_native_transaction Fake.driver leased_conn 0
                  (Some {| Isolation := 6; ReadOnly := true |})
                  (Fake.world (Fake.release 1 Fake.healthy)) null (Some Fake.ErrConnDone)
                  (Fake.release 1 Fake.healthy) eq_refl)).
  reflexivity.
Defined.

(** X4.  [Commit] and [Rollback] on any transaction, under any number of
    [connTx] layers: one native commit or rollback on the transaction at the
    bottom, then one [Close] for each owned connection, innermost first,
    whatever any of them answered.  The error returned is that of the native
    commit or rollback. *)
Theorem Tx_end_closes_owned_innermost_first {S} (sql : Driver S) (t : Tx) (w : World S) :
  let ntx := wtx_tx (Tx_wrapped t) in
  let owned := map Conn_native (Tx_owned t) in
  Tx_Commit sql t w =
    (fst (sql_Tx_Commit sql ntx (drv w)),
     mkWorld (trace w ++ call_Tx_Commit ntx :: map call_Close owned) (mem w)
             (close_all sql owned (snd (sql_Tx_Commit sql ntx (drv w))))) /\
  Tx_Rollback sql t w =
    (fst (sql_Tx_Rollback sql ntx (drv w)),
     mkWorld (trace w ++ call_Tx_Rollback ntx :: map call_Close owned) (mem w)
             (close_all sql owned (snd (sql_Tx_Rollback sql ntx (drv w))))).
Proof.
  split; [apply Tx_Commit_run | apply Tx_Rollback_run].
Qed.

Example nested_connTx_on_Fake :
  Tx_Commit Fake.driver
      (Tx_connTx (mk_connTx (WrapConn (C_Conn (at_addr 3))) (Tx_connTx owning_tx)))
      (Fake.world Fake.failing_commit) =
    (Some "commit failed",
     mkWorld [call_Tx_Commit (at_addr 2); call_Close (C_Conn (at_addr 1));
              call_Close (C_Conn (at_addr 3))] []
             (Fake.release 3 (Fake.release 1 Fake.failing_commit))).
Proof. reflexivity. Qed.

(** X5.  A statement prepared on a queryer, rebound to a transaction and
    executed: the native statement handed to the rebind is the one the
    prepare returned, and the execution runs on the native statement the
    rebind returned.  Three native calls are made, in this order, and the
    result is that of the execution.  If the prepare fails, its error is the
    result and neither the rebind nor the execution takes place. *)
Theorem prepare_rebind_exec_threads_statement {S} (sql : Driver S) (q : wrappedQueryer)
    (t : Tx) (ctx : Context) (query : string) (args : list value) (w : World S)
    (st : sql_Stmt) (e : error) (s1 : S) :
  sql_PrepareContext sql (wq_SQLQueryer q) ctx query (drv w) = (st, e, s1) ->
  let prep := call_PrepareContext (wq_SQLQueryer q) ctx query in
  let ntx := wtx_tx (Tx_wrapped t) in
  let rb := sql_Tx_StmtContext sql ntx ctx st s1 in
  let ex := sql_Stmt_ExecContext sql (fst rb) ctx args (snd rb) in
  (forall msg, e = Some msg ->
     prepare_rebind_exec sql q t ctx query args w = (None, Some msg, after w prep s1)) /\
  (e = None ->
     prepare_rebind_exec sql q t ctx query args w =
       (match snd (fst ex) with Some _ => None | None => fst (fst ex) end,
        snd (fst ex),
        mkWorld (trace w ++ [prep; call_Tx_StmtContext ntx ctx st;
                             call_Stmt_ExecContext (fst rb) ctx args])
                (mem w) (snd ex))).
Proof.
  intros H prep ntx rb ex. unfold prepare_rebind_exec.
  rewrite bind_run, wrappedQueryer_Prepare_run, H.
  split.
  - intros msg ->. reflexivity.
  - intros ->. cbn [fst snd].
    rewrite bind_run, Tx_Stmt_wrapped. unfold wrappedTx_Stmt.
    rewrite bind_run, native_call_run. cbn [fst snd ret].
    rewrite wrappedStmt_Exec_run. cbn [ws_Stmt WrapStmt wrappedStmt_Unwrap after drv trace mem].
    fold ntx. fold rb. fold ex.
    destruct ex as [[r x] s]. unfold after. cbn [fst snd trace mem].
    now rewrite <- !app_assoc.
Qed.

Lemma prepare_rebind_exec_threads_statement_witness :
  prepare_rebind_exec Fake.driver (WrapQueryer (Q_DB (at_addr 0))) plain_tx 0
      "INSERT INTO t VALUES (?)" [VInt 5] (Fake.world Fake.healthy) =
    (Some {| LastInsertId := 7; RowsAffected := 1 |}, None,
     mkWorld [call_PrepareContext (Q_DB (at_addr 0)) 0 "INSERT INTO t VALUES (?)";
              call_Tx_StmtContext (at_addr 2) 0 (at_addr 1);
              call_Stmt_ExecContext (at_addr 2) 0 [VInt 5]] []
             (snd (Fake.alloc (k := kStmt) (snd (Fake.alloc (k := kStmt) Fake.healthy))))).
Proof.
  apply (proj2 (prepare_rebind_exec_threads_statement Fake.driver
                  (WrapQueryer (Q_DB (at_addr 0))) plain_tx 0 "INSERT INTO t VALUES (?)"
                  [VInt 5] (Fake.world Fake.healthy) (at_addr 1) None
                  (snd (Fake.alloc (k := kStmt) Fake.healthy)) eq_refl)).
  reflexivity.
Defined.


(** X7.  The wrappers keep no record of a [Close]: closing a connection a
    second time reaches the driver again, and each [Close] returns what the
    driver answered to it. *)
Theorem close_twice_reaches_driver_twice {S} (sql : Driver S) (c : Conn) (w : World S) :
  let r1 := sql_Close sql (Conn_native c) (drv w) in
  let r2 := sql_Close sql (Conn_native c) (snd r1) in
  close_twice sql c w =
    ((fst r1, fst r2),
     mkWorld (trace w ++ [call_Close (Conn_native c); call_Close (Conn_native c)])
             (mem w) (snd r2)).
Proof.
  intros r1 r2. unfold close_twice.
  rewrite !bind_run, !Conn_Close_run. cbn. unfold after. cbn.
  now rewrite <- app_assoc.
Qed.

Example close_twice_on_Fake :
  fst (close_twice Fake.driver leased_conn (Fake.world Fake.healthy)) =
    (None, Some Fake.ErrConnDone).
Proof. reflexivity. Qed.

(** X8.  A [connTx] changes [Commit] and [Rollback] only.  On any
    transaction, under any number of [connTx] layers, [Exec], [Query],
    [QueryRow], [Prepare] and [Stmt] each make one native call, on the
    queryer or the native transaction of the [wrappedTx] at the bottom; no
    owned connection is closed or otherwise touched. *)
Theorem connTx_promoted_methods_never_close {S} (sql : Driver S) (t : Tx) (ctx : Context)
    (query : string) (args : list value) (stmt : Stmt) :
  let q := wq_SQLQueryer (wtx_Queryer (Tx_wrapped t)) in
  makes (Tx_Exec sql t ctx query args) [call_ExecContext q ctx query args] /\
  makes (Tx_Query sql t ctx query args) [call_QueryContext q ctx query args] /\
  makes (Tx_QueryRow sql t ctx query args) [call_QueryRowContext q ctx query args] /\
  makes (Tx_Prepare sql t ctx query) [call_PrepareContext q ctx query] /\
  makes (Tx_Stmt sql t ctx stmt)
        [call_Tx_StmtContext (wtx_tx (Tx_wrapped t)) ctx (wrappedStmt_Unwrap stmt)].
Proof.
  intros q.
  rewrite Tx_Exec_wrapped, Tx_Query_wrapped, Tx_QueryRow_wrapped, Tx_Prepare_wrapped.
  repeat apply conj.
  - apply makes_Exec.
  - apply makes_Query.
  - apply makes_QueryRow.
  - apply makes_Prepare.
  - apply makes_Tx_Stmt.
Qed.

Example connTx_Exec_on_Fake :
  wrappedQueryer_Exec Fake.driver (WrapQueryer (Q_Tx (at_addr 2))) 0 "DELETE FROM t" []
      (Fake.world Fake.healthy) =
    Tx_Exec Fake.driver (Tx_connTx owning_tx) 0 "DELETE FROM t" [] (Fake.world Fake.healthy) /\
  trace (snd (Tx_Exec Fake.driver (Tx_connTx owning_tx) 0 "DELETE FROM t" []
                (Fake.world Fake.healthy))) =
    [call_ExecContext (Q_Tx (at_addr 2)) 0 "DELETE FROM t" []].
Proof. split; reflexivity. Qed.
